(** * Conversation store of the multi-modal chat UI

    A shallow embedding of the conversation state machine of [App.tsx]
    (state held in React hooks, handlers, effects) and of the request
    builders of [services/geminiService.ts], followed by the properties
    proved about them.

    Conventions of the embedding.
    - A JavaScript string is a [string]; one [ascii] stands for one UTF-16
      code unit below 256.  Truthiness of a string is non-emptiness.
    - An optional field ([images?], [context?], ...) is an [option]:
      [None] is [undefined].  [null] is written out where the source uses
      it ([Feedback], [activeConversationId], [chatSession]).
    - An array is a [list]; the [Array.prototype] functions used by the
      source are defined below under their own names.  Indices are [Z], so
      that [findIndex] can answer [-1] as it does in the source.
    - [crypto.randomUUID()] is an input: every handler that draws an
      identifier receives it as an argument. *)

From Stdlib Require Import String Ascii List Bool ZArith Lia DecimalString.
Import ListNotations.
Open Scope string_scope.
Open Scope Z_scope.
Open Scope list_scope.

(** ** JavaScript values and array functions used by the source *)

Module Js.

(** [!!s] for a string. *)
Definition truthy (s : string) : bool := negb (s =? "")%string.

(** [!!x] for [x : string | null | undefined]. *)
Definition truthyOpt (o : option string) : bool :=
  match o with
  | Some s => truthy s
  | None => false
  end.

(** [a || b] on strings. *)
Definition orElse (a b : string) : string := if truthy a then a else b.

(** [a || b] for [a : string | undefined]. *)
Definition orElseOpt (a : option string) (b : string) : string :=
  match a with
  | Some s => orElse s b
  | None => b
  end.

(** [a === b] for [a : string | null] and [b : string]. *)
Definition strictEqOpt (a : option string) (b : string) : bool :=
  match a with
  | Some s => (s =? b)%string
  | None => false
  end.

Definition nl : string := String (ascii_of_nat 10) "".

(** [s.split(sep)] for a one-character separator: always at least one
    piece. *)
Fixpoint split (sep : ascii) (s : string) : list string :=
  match s with
  | EmptyString => [EmptyString]
  | String c r =>
      if Ascii.eqb c sep then EmptyString :: split sep r
      else match split sep r with
           | h :: t => String c h :: t
           | [] => [String c EmptyString]
           end
  end.

(** [s.substring(0, n)]. *)
Definition substring0 (n : nat) (s : string) : string := String.substring 0 n s.

(** [arr.findIndex(p)]: the first index whose element satisfies [p],
    [-1] when there is none. *)
Fixpoint findIndex {A} (p : A -> bool) (l : list A) : Z :=
  match l with
  | [] => -1
  | x :: r =>
      if p x then 0
      else let i := findIndex p r in if i <? 0 then -1 else i + 1
  end.

(** [arr[i]]: [None] is [undefined]. *)
Definition at_ {A} (l : list A) (i : Z) : option A :=
  if i <? 0 then None else nth_error l (Z.to_nat i).

Definition len {A} (l : list A) : Z := Z.of_nat (List.length l).

(** Relative index resolution of [Array.prototype.slice]. *)
Definition relIndex (n i : Z) : Z :=
  if i <? 0 then Z.max 0 (n + i) else Z.min i n.

(** [arr.slice(start, stop)]. *)
Definition slice {A} (l : list A) (start stop : Z) : list A :=
  let k := relIndex (len l) start in
  let e := relIndex (len l) stop in
  firstn (Z.to_nat (e - k)) (skipn (Z.to_nat k) l).

(** [arr.slice(start)]. *)
Definition sliceFrom {A} (l : list A) (start : Z) : list A :=
  slice l start (len l).

(** [copy[i] = x] on a fresh copy, for an index inside the array (the
    only use in the source takes [i] from a successful [findIndex]);
    other indices leave the list as it is. *)
Fixpoint assignAt {A} (l : list A) (i : nat) (x : A) : list A :=
  match l, i with
  | [], _ => []
  | _ :: r, O => x :: r
  | y :: r, S j => y :: assignAt r j x
  end.

(** The regular expression [/:(.*?);/] applied with [String.match]:
    [afterColon] is the lazy [(.*?);] tail, which stops at the first
    [;] and fails on a line terminator, that [.] does not match. *)
Definition isLineTerminator (c : ascii) : bool :=
  Ascii.eqb c (ascii_of_nat 10) || Ascii.eqb c (ascii_of_nat 13).

Fixpoint afterColon (s : string) : option string :=
  match s with
  | EmptyString => None
  | String c r =>
      if Ascii.eqb c ";" then Some EmptyString
      else if isLineTerminator c then None
      else option_map (String c) (afterColon r)
  end.

(** [meta.match(/:(.*?);/)?.[1]]: the capture of the leftmost match. *)
Fixpoint matchMime (s : string) : option string :=
  match s with
  | EmptyString => None
  | String c r =>
      if Ascii.eqb c ":" then
        match afterColon r with
        | Some g => Some g
        | None => matchMime r
        end
      else matchMime r
  end.

(** A promise once settled. *)
Record Error := mkError { message : option string }.

Inductive Settled (A : Type) : Type :=
| Fulfilled (value : A)
| Rejected (reason : Error).
Arguments Fulfilled {A} value.
Arguments Rejected {A} reason.

End Js.

(** ** [types.ts] *)

Inductive Role := USER | MODEL.

Record GroundingSource := mkSource { uri : string; title : string }.

(** [type Feedback = 'up' | 'down' | null]: [None] is [null]. *)
Inductive FeedbackTag := up | down.
Definition Feedback := option FeedbackTag.

Module Message.
Record t := mk {
  id : string;
  role : Role;
  text : string;
  sources : option (list GroundingSource);
  isPlaying : option bool;
  images : option (list string);
  feedback : option Feedback
}.

(** [{ ...m, feedback: f }] *)
Definition withFeedback (m : t) (f : Feedback) : t :=
  mk (id m) (role m) (text m) (sources m) (isPlaying m) (images m) (Some f).
End Message.
Abbreviation Message := Message.t.

Inductive ChatMode := CHAT | THINKING | MAPS.

Module Conversation.
Record t := mk {
  id : string;
  title : string;
  messages : list Message;
  mode : ChatMode;
  context : option string
}.

Definition withTitle (c : t) (x : string) : t :=
  mk (id c) x (messages c) (mode c) (context c).
Definition withMessages (c : t) (x : list Message) : t :=
  mk (id c) (title c) x (mode c) (context c).
Definition withMode (c : t) (x : ChatMode) : t :=
  mk (id c) (title c) (messages c) x (context c).
Definition withContext (c : t) (x : string) : t :=
  mk (id c) (title c) (messages c) (mode c) (Some x).
End Conversation.
Abbreviation Conversation := Conversation.t.

Definition Role_eqb (a b : Role) : bool :=
  match a, b with
  | USER, USER | MODEL, MODEL => true
  | _, _ => false
  end.

Definition ChatMode_eqb (a b : ChatMode) : bool :=
  match a, b with
  | CHAT, CHAT | THINKING, THINKING | MAPS, MAPS => true
  | _, _ => false
  end.

Definition FeedbackTag_eqb (a b : FeedbackTag) : bool :=
  match a, b with
  | up, up | down, down => true
  | _, _ => false
  end.

(** ** [@google/genai]: the values exchanged with the remote service

    The client library is outside the repository.  Its values are modelled
    by what the source writes into them and reads from them: a [Part] is
    either [{ text }] or [{ inlineData: { data, mimeType } }], a [Content]
    is [{ role, parts }], and a [Chat] handle is known by the history it
    was created with. *)

Module GenAI.

Inductive Part :=
| TextPart (text : string)
| InlineData (data mimeType : string).

Record Content := mkContent { role : Role; parts : list Part }.

Record Chat := mkChat { history : list Content }.

(** [GeolocationCoordinates]; the source only copies the two numbers. *)
Record GeolocationCoordinates := mkCoords { latitude : Z; longitude : Z }.

(** The [config] objects the source builds. *)
Record Config := mkConfig {
  thinkingBudget : option Z;
  googleMaps : bool;
  latLng : option (Z * Z)
}.

Record GenerateContentParameters := mkParams {
  model : string;
  contents : list Part;
  config : Config
}.

(** [chunk.maps] of a grounding chunk. *)
Record MapsChunk := mkMaps { mapsUri : option string; mapsTitle : option string }.
Record GroundingChunk := mkChunk { maps : option MapsChunk }.

(** What the source reads of a [GenerateContentResponse]: [response.text]
    and [response.candidates?.[0]?.groundingMetadata?.groundingChunks]. *)
Record GenerateContentResponse := mkResponse {
  responseText : string;
  groundingChunks : option (list GroundingChunk)
}.

(** The remote service: [ai.models.generateContent] and
    [chat.sendMessage], each answering with a settled promise. *)
Record Service := mkService {
  generateContent : GenerateContentParameters -> Js.Settled GenerateContentResponse;
  sendMessage : Chat -> list Part -> Js.Settled string
}.

End GenAI.
Import GenAI.

(** ** Conversion of image data URIs into inline parts

    The same loop body occurs four times in the source (session binder
    effect, plain-mode send, [getThinkingResponse], [getMapsResponse]):
<<
      const [meta, base64Data] = image.split(',');
      const mimeType = meta.match(/:(.*?);/)?.[1];
      if (base64Data && mimeType) {
          parts.push({ inlineData: { data: base64Data, mimeType } });
      }
>>
    [inlinePart] is that body, [pushImages] the guarded [forEach]. *)

Definition inlinePart (image : string) : option Part :=
  let pieces := Js.split "," image in
  let meta := nth 0 pieces "" in
  let base64Data := nth_error pieces 1 in
  let mimeType := Js.matchMime meta in
  if Js.truthyOpt base64Data && Js.truthyOpt mimeType then
    match base64Data, mimeType with
    | Some d, Some m => Some (InlineData d m)
    | _, _ => None
    end
  else None.

(** [if (images) { images.forEach(image => ...) }] pushing onto [parts]. *)
Definition pushImages (images : option (list string)) (parts : list Part) : list Part :=
  match images with
  | None => parts
  | Some l =>
      fold_left
        (fun acc image =>
           match inlinePart image with
           | Some p => acc ++ [p]
           | None => acc
           end)
        l parts
  end.

(** ** [services/geminiService.ts] *)

Module GeminiService.
Section WithService.

Variable ai : Service.



(** White space and line terminators of [String.prototype.trim] below
    code unit 256. *)
Definition isSpace (c : ascii) : bool :=
  let n := nat_of_ascii c in
  ((9 <=? n) && (n <=? 13))%nat || (n =? 32)%nat || (n =? 160)%nat.

Fixpoint trimStart (s : string) : string :=
  match s with
  | EmptyString => EmptyString
  | String c r => if isSpace c then trimStart r else s
  end.

Fixpoint trimEnd (s : string) : string :=
  match s with
  | EmptyString => EmptyString
  | String c r =>
      match trimEnd r with
      | EmptyString => if isSpace c then EmptyString else String c EmptyString
      | r' => String c r'
      end
  end.

Definition trim (s : string) : string := trimEnd (trimStart s).

Definition quote : string := String (ascii_of_nat 34) "".


Definition createChatSession (history : list Content) : Chat := mkChat history.

(** [context ? `${context}\n\nQuestion: ${prompt}` : prompt] *)
Definition fullPrompt (prompt context : string) : string :=
  if Js.truthy context
  then (context ++ Js.nl ++ Js.nl ++ "Question: " ++ prompt)%string
  else prompt.

(** The [userParts] array of [getThinkingResponse] and of
    [getMapsResponse]: the text part first, then the images. *)
Definition serviceUserParts (prompt context : string) (images : option (list string))
  : list Part :=
  pushImages images [TextPart (fullPrompt prompt context)].

Definition getThinkingResponse (prompt context : string) (images : option (list string))
  : Js.Settled string :=
  let userParts := serviceUserParts prompt context images in
  match generateContent ai
          (mkParams "gemini-2.5-pro" userParts (mkConfig (Some 32768) false None)) with
  | Js.Fulfilled response => Js.Fulfilled (responseText response)
  | Js.Rejected e => Js.Rejected e
  end.

(** [chunk.maps?.uri] as a condition. *)
Definition hasMapsUri (chunk : GroundingChunk) : bool :=
  match maps chunk with
  | Some m => Js.truthyOpt (mapsUri m)
  | None => false
  end.

(** [{ uri: chunk.maps.uri, title: chunk.maps.title || 'View on Google Maps' }],
    applied to chunks that passed [hasMapsUri]. *)
Definition toSource (chunk : GroundingChunk) : GroundingSource :=
  match maps chunk with
  | Some m =>
      mkSource (Js.orElseOpt (mapsUri m) "") (Js.orElseOpt (mapsTitle m) "View on Google Maps")
  | None => mkSource "" "View on Google Maps"
  end.

Definition getMapsResponse (prompt context : string)
    (location : option GeolocationCoordinates) (images : option (list string))
  : Js.Settled (string * option (list GroundingSource)) :=
  let userParts := serviceUserParts prompt context images in
  let config :=
    mkConfig None true
      (match location with
       | Some l => Some (latitude l, longitude l)
       | None => None
       end) in
  match generateContent ai (mkParams "gemini-2.5-flash" userParts config) with
  | Js.Fulfilled response =>
      let sources :=
        match groundingChunks response with
        | Some chunks => map toSource (filter hasMapsUri chunks)
        | None => []
        end in
      Js.Fulfilled (responseText response, Some sources)
  | Js.Rejected e => Js.Rejected e
  end.

End WithService.
End GeminiService.

(** ** The persisted conversation list

    [localStorage] holds text; [JSON.stringify] and [JSON.parse] belong to
    the platform.  The embedding works on the value the text denotes: a
    [Json.value] is what [JSON.parse] returns, an object being the list of
    its own properties (distinct keys, insertion order).  [Json.ofX] is
    [JSON.stringify] on a typed value up to that denotation; a property
    whose value is [undefined] is left out, [null] is kept.  [Json.toX] is
    the reading of a parsed value at the type the source casts it to
    ([as Conversation[]]), by property name. *)

Module Json.

Unset Elimination Schemes.
Inductive value :=
| JNull
| JBool (b : bool)
| JString (s : string)
| JArray (l : list value)
| JObject (props : list (string * value)).
Set Elimination Schemes.

(** [o[k]] *)
Fixpoint get (k : string) (props : list (string * value)) : option value :=
  match props with
  | [] => None
  | (k', v) :: r => if (k' =? k)%string then Some v else get k r
  end.

Definition field (k : string) (v : option value) : list (string * value) :=
  match v with
  | Some x => [(k, x)]
  | None => []
  end.

Definition ofRole (r : Role) : value :=
  match r with
  | USER => JString "user"
  | MODEL => JString "model"
  end.

Definition ofMode (m : ChatMode) : value :=
  match m with
  | CHAT => JString "CHAT"
  | THINKING => JString "THINKING"
  | MAPS => JString "MAPS"
  end.

Definition ofFeedback (f : Feedback) : value :=
  match f with
  | None => JNull
  | Some up => JString "up"
  | Some down => JString "down"
  end.

Definition ofSource (g : GroundingSource) : value :=
  JObject [("uri", JString (uri g)); ("title", JString (title g))].

Definition ofMessage (m : Message) : value :=
  JObject
    ([("id", JString (Message.id m));
      ("role", ofRole (Message.role m));
      ("text", JString (Message.text m))]
       ++ field "sources" (option_map (fun l => JArray (map ofSource l)) (Message.sources m))
       ++ field "isPlaying" (option_map JBool (Message.isPlaying m))
       ++ field "images" (option_map (fun l => JArray (map JString l)) (Message.images m))
       ++ field "feedback" (option_map ofFeedback (Message.feedback m))).

Definition ofConversation (c : Conversation) : value :=
  JObject
    ([("id", JString (Conversation.id c));
      ("title", JString (Conversation.title c));
      ("messages", JArray (map ofMessage (Conversation.messages c)));
      ("mode", ofMode (Conversation.mode c))]
       ++ field "context" (option_map JString (Conversation.context c))).

Definition ofConversations (l : list Conversation) : value :=
  JArray (map ofConversation l).

Definition toString (v : value) : option string :=
  match v with
  | JString s => Some s
  | _ => None
  end.

Definition toBool (v : value) : option bool :=
  match v with
  | JBool b => Some b
  | _ => None
  end.

Definition toRole (v : value) : option Role :=
  match v with
  | JString s =>
      if (s =? "user")%string then Some USER
      else if (s =? "model")%string then Some MODEL else None
  | _ => None
  end.

Definition toMode (v : value) : option ChatMode :=
  match v with
  | JString s =>
      if (s =? "CHAT")%string then Some CHAT
      else if (s =? "THINKING")%string then Some THINKING
      else if (s =? "MAPS")%string then Some MAPS else None
  | _ => None
  end.

Definition toFeedback (v : value) : option Feedback :=
  match v with
  | JNull => Some None
  | JString s =>
      if (s =? "up")%string then Some (Some up)
      else if (s =? "down")%string then Some (Some down) else None
  | _ => None
  end.

(** Every element read at one type. *)
Fixpoint toList {A} (f : value -> option A) (l : list value) : option (list A) :=
  match l with
  | [] => Some []
  | v :: r =>
      match f v, toList f r with
      | Some a, Some r' => Some (a :: r')
      | _, _ => None
      end
  end.

Definition toArray {A} (f : value -> option A) (v : value) : option (list A) :=
  match v with
  | JArray l => toList f l
  | _ => None
  end.

(** A required property. *)
Definition req {A} (f : value -> option A) (k : string) (props : list (string * value))
  : option A :=
  match get k props with
  | Some v => f v
  | None => None
  end.

(** An optional property: absent reads as [undefined]. *)
Definition opt {A} (f : value -> option A) (k : string) (props : list (string * value))
  : option (option A) :=
  match get k props with
  | Some v => option_map Some (f v)
  | None => Some None
  end.

Definition toSource (v : value) : option GroundingSource :=
  match v with
  | JObject o =>
      match req toString "uri" o, req toString "title" o with
      | Some u, Some t => Some (mkSource u t)
      | _, _ => None
      end
  | _ => None
  end.

Definition toMessage (v : value) : option Message :=
  match v with
  | JObject o =>
      match req toString "id" o, req toRole "role" o, req toString "text" o,
            opt (toArray toSource) "sources" o, opt toBool "isPlaying" o,
            opt (toArray toString) "images" o, opt toFeedback "feedback" o with
      | Some i, Some r, Some t, Some so, Some p, Some im, Some f =>
          Some (Message.mk i r t so p im f)
      | _, _, _, _, _, _, _ => None
      end
  | _ => None
  end.

Definition toConversation (v : value) : option Conversation :=
  match v with
  | JObject o =>
      match req toString "id" o, req toString "title" o,
            req (toArray toMessage) "messages" o, req toMode "mode" o,
            opt toString "context" o with
      | Some i, Some t, Some ms, Some m, Some c => Some (Conversation.mk i t ms m c)
      | _, _, _, _, _ => None
      end
  | _ => None
  end.

End Json.

(** What [localStorage.getItem('chatHistory')] followed by [JSON.parse]
    can meet. *)
Inductive StoredHistory :=
| Missing                      (* [getItem] answers [null], or the empty string *)
| Unparsable                   (* [JSON.parse] throws *)
| Parsed (v : Json.value).     (* the text denotes [v] *)

(** ** [App.tsx]: the conversation store

    The React state of [App] is a record; a handler is a function from the
    state it runs in to the state after its setters have been applied.
    Values a callback reads from its closure ([conversations],
    [activeConversationId], [isLoading], ...) come from the state of the
    render that created it; updater functions ([setConversations(prev =>
    ...)]) apply to the state current when they run.  For the
    asynchronous [handleSendMessage] the two are separate arguments. *)

Module App.

Record State := mkState {
  conversations : list Conversation;
  activeConversationId : option string;
  chatSession : option Chat;
  isLoading : bool;
  context : string;
  error : option string;
  location : option GeolocationCoordinates
}.

(** The [useState] initial values. *)
Definition initialState : State :=
  mkState [] None None false "" None None.

Definition setConversations (x : list Conversation) (s : State) : State :=
  mkState x (activeConversationId s) (chatSession s) (isLoading s) (context s)
    (error s) (location s).
Definition setActiveConversationId (x : option string) (s : State) : State :=
  mkState (conversations s) x (chatSession s) (isLoading s) (context s)
    (error s) (location s).
Definition setChatSession (x : option Chat) (s : State) : State :=
  mkState (conversations s) (activeConversationId s) x (isLoading s) (context s)
    (error s) (location s).
Definition setIsLoading (x : bool) (s : State) : State :=
  mkState (conversations s) (activeConversationId s) (chatSession s) x (context s)
    (error s) (location s).
Definition setContext (x : string) (s : State) : State :=
  mkState (conversations s) (activeConversationId s) (chatSession s) (isLoading s) x
    (error s) (location s).
Definition setError (x : option string) (s : State) : State :=
  mkState (conversations s) (activeConversationId s) (chatSession s) (isLoading s)
    (context s) x (location s).
Definition setLocation (x : option GeolocationCoordinates) (s : State) : State :=
  mkState (conversations s) (activeConversationId s) (chatSession s) (isLoading s)
    (context s) (error s) x.

(** [c.id === activeConversationId] *)
Definition isActive (activeId : option string) (c : Conversation) : bool :=
  Js.strictEqOpt activeId (Conversation.id c).

(** [prev.map(c => c.id === activeConversationId ? f(c) : c)] *)
Definition mapActive (activeId : option string) (f : Conversation -> Conversation)
    (l : list Conversation) : list Conversation :=
  map (fun c => if isActive activeId c then f c else c) l.

(** The [useMemo] value [activeConversation]. *)
Definition activeConversation (s : State) : option Conversation :=
  find (isActive (activeConversationId s)) (conversations s).

Section WithEnvironment.

(** The identifier drawn once for the module-level [initialBotMessage]. *)
Variable greetingId : string.
Variable ai : Service.

Definition initialBotMessage : Message :=
  Message.mk greetingId MODEL
    "Hello! I'm a multi-modal AI assistant. Choose a mode, ask me anything, or upload an image to start."
    None None None None.

(** The object literal shared by [handleNewChat] and
    [handleClearAllConversations]. *)
Definition newConversation (fresh : string) : Conversation :=
  Conversation.mk fresh "New Chat" [initialBotMessage] CHAT (Some "").

(** *** The session binder effect, on [[activeConversation]] *)

Definition toContent (msg : Message) : Content :=
  let parts := pushImages (Message.images msg) [] in
  let parts := if Js.truthy (Message.text msg)
               then parts ++ [TextPart (Message.text msg)] else parts in
  mkContent (Message.role msg) parts.

Definition sessionBinder (s : State) : State :=
  match activeConversation s with
  | Some c =>
      let s := setContext (Js.orElseOpt (Conversation.context c) "") s in
      match Conversation.mode c with
      | CHAT =>
          let history := map toContent (Js.sliceFrom (Conversation.messages c) 1) in
          setChatSession (Some (GeminiService.createChatSession history)) s
      | _ => setChatSession None s
      end
  | None => s
  end.

(** *** Handlers *)

Definition handleNewChat (fresh : string) (s : State) : State :=
  setActiveConversationId (Some fresh)
    (setConversations (newConversation fresh :: conversations s) s).

Definition handleSelectConversation (id : string) (s : State) : State :=
  setActiveConversationId (Some id) s.

Definition handleRenameConversation (id newTitle : string) (s : State) : State :=
  setConversations
    (map (fun c => if (Conversation.id c =? id)%string
                   then Conversation.withTitle c newTitle else c)
       (conversations s)) s.

Definition handleDeleteConversation (idToDelete fresh : string) (s : State) : State :=
  let index :=
    Js.findIndex (fun c => (Conversation.id c =? idToDelete)%string) (conversations s) in
  if index =? -1 then s
  else
    let newConversations :=
      filter (fun c => negb (Conversation.id c =? idToDelete)%string) (conversations s) in
    if Js.strictEqOpt (activeConversationId s) idToDelete then
      if Js.len newConversations >? 0 then
        let newActiveIndex := Z.max 0 (index - 1) in
        match Js.at_ newConversations newActiveIndex with
        | Some c =>
            setConversations newConversations
              (setActiveConversationId (Some (Conversation.id c)) s)
        | None => s (* reading [.id] of [undefined] throws before any setter *)
        end
      else handleNewChat fresh s (* followed by [return] *)
    else setConversations newConversations s.

Definition handleClearAllConversations (fresh : string) (s : State) : State :=
  setActiveConversationId (Some fresh)
    (setConversations [newConversation fresh] s).

Definition handleSetContext (newContext : string) (s : State) : State :=
  let s1 := setContext newContext s in
  if negb (Js.truthyOpt (activeConversationId s)) then s1
  else
    setConversations
      (mapActive (activeConversationId s)
         (fun c => Conversation.withContext c newContext) (conversations s1)) s1.

Definition handleSetMode (mode : ChatMode) (s : State) : State :=
  if negb (Js.truthyOpt (activeConversationId s)) then s
  else
    setConversations
      (mapActive (activeConversationId s)
         (fun c => Conversation.withMode c mode) (conversations s)) s.

(** The inner [messages.map] callback of [handleFeedback]. *)
Definition toggleFeedback (messageId : string) (feedback : FeedbackTag) (m : Message)
  : Message :=
  if (Message.id m =? messageId)%string then
    let newFeedback :=
      match Message.feedback m with
      | Some (Some f) => if FeedbackTag_eqb f feedback then None else Some feedback
      | _ => Some feedback
      end in
    Message.withFeedback m newFeedback
  else m.

Definition handleFeedback (messageId : string) (feedback : FeedbackTag) (s : State)
  : State :=
  if negb (Js.truthyOpt (activeConversationId s)) then s
  else
    setConversations
      (mapActive (activeConversationId s)
         (fun c =>
            Conversation.withMessages c
              (map (toggleFeedback messageId feedback) (Conversation.messages c)))
         (conversations s)) s.

(** *** [handleSendMessage]

    [cl] is the state of the render whose callback runs (the closure),
    [s] the state the updater functions meet.  The function is cut at its
    [await]: [sendStart] is everything before the dispatch, [dispatch] the
    [switch] on the mode (settled by the remote service, or rejected on the
    spot by one of the two [throw]s), [sendFinish] the rest of the [try],
    the [catch] and the [finally]. *)

(** The early [return] condition. *)
Definition sendGuard (cl : State) (prompt : string) (images : option (list string))
  : bool :=
  (negb (Js.truthy prompt)
     && match images with
        | None => true
        | Some l => Js.len l =? 0
        end)
  || isLoading cl
  || negb (Js.truthyOpt (activeConversationId cl))
  || match activeConversation cl with
     | None => true
     | Some _ => false
     end.

Definition userMessage (uid prompt : string) (images : option (list string)) : Message :=
  Message.mk uid USER prompt None None images None.

Definition sendStart (cl : State) (uid prompt : string) (images : option (list string))
    (s : State) : State :=
  let s := setError None (setIsLoading true s) in
  let prev := conversations s in
  let isNew :=
    match find (isActive (activeConversationId cl)) prev with
    | Some c => Js.len (Conversation.messages c) =? 1
    | None => false
    end in
  let titlePrompt := Js.orElse prompt "Image Upload" in
  setConversations
    (mapActive (activeConversationId cl)
       (fun c =>
          Conversation.mk (Conversation.id c)
            (if isNew then (Js.substring0 40 titlePrompt ++ "...")%string
             else Conversation.title c)
            (Conversation.messages c ++ [userMessage uid prompt images])
            (Conversation.mode c) (Conversation.context c))
       prev) s.


(** The [then] callback of the title promise, whenever it comes to run. *)
Definition titleResolved (cl : State) (title : string) (s : State) : State :=
  setConversations
    (mapActive (activeConversationId cl) (fun c => Conversation.withTitle c title)
       (conversations s)) s.

(** [context ? `CONTEXT:\n${context}\n\n---\n\nPROMPT:\n${prompt}` : prompt] *)
Definition fullContext (context prompt : string) : string :=
  if Js.truthy context
  then ("CONTEXT:" ++ Js.nl ++ context ++ Js.nl ++ Js.nl ++ "---" ++ Js.nl ++ Js.nl
          ++ "PROMPT:" ++ Js.nl ++ prompt)%string
  else prompt.

(** The [userParts] array of the plain-mode case. *)
Definition chatUserParts (images : option (list string)) (fullContext : string)
  : list Part :=
  let userParts := pushImages images [] in
  if Js.truthy fullContext then userParts ++ [TextPart fullContext] else userParts.

Definition Reply : Type := string * option (list GroundingSource).

Definition dispatch (cl : State) (c : Conversation) (prompt : string)
    (images : option (list string)) : Js.Settled Reply :=
  match Conversation.mode c with
  | THINKING =>
      match GeminiService.getThinkingResponse ai prompt (context cl) images with
      | Js.Fulfilled responseText => Js.Fulfilled (responseText, None)
      | Js.Rejected e => Js.Rejected e
      end
  | MAPS =>
      match location cl with
      | None =>
          Js.Rejected
            (Js.mkError (Some "Location not available. Please allow location access."))
      | Some _ => GeminiService.getMapsResponse ai prompt (context cl) (location cl) images
      end
  | CHAT =>
      match chatSession cl with
      | None => Js.Rejected (Js.mkError (Some "Chat session not initialized."))
      | Some session =>
          match sendMessage ai session (chatUserParts images (fullContext (context cl) prompt)) with
          | Js.Fulfilled responseText => Js.Fulfilled (responseText, None)
          | Js.Rejected e => Js.Rejected e
          end
      end
  end.

(** [`Error: ${err.message || 'An unexpected error occurred.'}`] *)
Definition errorMessage (err : Js.Error) : string :=
  ("Error: " ++ Js.orElseOpt (Js.message err) "An unexpected error occurred.")%string.

Definition appendMessage (activeId : option string) (m : Message)
    (l : list Conversation) : list Conversation :=
  mapActive activeId
    (fun c => Conversation.withMessages c (Conversation.messages c ++ [m])) l.

Definition sendFinish (cl : State) (mid : string) (outcome : Js.Settled Reply)
    (s : State) : State :=
  let s :=
    match outcome with
    | Js.Fulfilled (responseText, responseSources) =>
        let modelMessage :=
          Message.mk mid MODEL responseText responseSources None None None in
        setConversations
          (appendMessage (activeConversationId cl) modelMessage (conversations s)) s
    | Js.Rejected err =>
        let s := setError (Some (errorMessage err)) s in
        let errorBotMessage :=
          Message.mk mid MODEL (errorMessage err) None None None None in
        setConversations
          (appendMessage (activeConversationId cl) errorBotMessage (conversations s)) s
    end in
  setIsLoading false s.

(** The whole callback when nothing else runs between its two halves.
    [uid] and [mid] are the identifiers drawn for the user message and for
    the reply. *)
Definition handleSendMessageFrom (cl : State) (uid mid prompt : string)
    (images : option (list string)) (s : State) : State :=
  if sendGuard cl prompt images then s
  else
    match activeConversation cl with
    | Some c => sendFinish cl mid (dispatch cl c prompt images) (sendStart cl uid prompt images s)
    | None => s
    end.

(** A send from the current render. *)
Definition handleSendMessage (uid mid prompt : string) (images : option (list string))
    (s : State) : State :=
  handleSendMessageFrom s uid mid prompt images s.

(** *** [handleEditMessage]

    The second component is the call left with [setTimeout]:
    [handleSendMessage(newText, originalImages)]. *)
Definition handleEditMessage (messageId newText : string) (s : State)
  : State * option (string * option (list string)) :=
  if negb (Js.truthyOpt (activeConversationId s)) || isLoading s then (s, None)
  else
    let conversationIndex :=
      Js.findIndex (isActive (activeConversationId s)) (conversations s) in
    if conversationIndex =? -1 then (s, None)
    else
      match Js.at_ (conversations s) conversationIndex with
      | None => (s, None)
      | Some conversation =>
          let messageIndex :=
            Js.findIndex (fun m => (Message.id m =? messageId)%string)
              (Conversation.messages conversation) in
          if messageIndex <=? 0 then (s, None)
          else
            match Js.at_ (Conversation.messages conversation) messageIndex with
            | None => (s, None)
            | Some originalMessage =>
                if negb (Role_eqb (Message.role originalMessage) USER) then (s, None)
                else
                  let originalImages := Message.images originalMessage in
                  let truncatedMessages :=
                    Js.slice (Conversation.messages conversation) 0 messageIndex in
                  let updatedConversations :=
                    Js.assignAt (conversations s) (Z.to_nat conversationIndex)
                      (Conversation.withMessages conversation truncatedMessages) in
                  (setConversations updatedConversations s, Some (newText, originalImages))
            end
      end.

(** The edit followed by its timer: the scheduled callback is the one of
    the render the edit ran in, so it reads that render's state. *)
Definition editThenSend (messageId newText uid mid : string) (s : State) : State :=
  match handleEditMessage messageId newText s with
  | (s', Some (prompt, images)) => handleSendMessageFrom s uid mid prompt images s'
  | (s', None) => s'
  end.

(** *** Persistence effects *)

(** The effect on [[conversations]]: what the key holds once it ran. *)
Definition saveHistory (s : State) : StoredHistory :=
  if Js.len (conversations s) >? 0
  then Parsed (Json.ofConversations (conversations s))
  else Missing.

(** The mount effect.  A stored array that cannot be read as
    [Conversation[]] has no image in the typed state ([None]): the source
    would carry it unchecked. *)
Definition loadHistory (fresh : string) (stored : StoredHistory) (s : State)
  : option State :=
  match stored with
  | Parsed (Json.JArray (x :: r)) =>
      match Json.toList Json.toConversation (x :: r) with
      | Some (c :: cs) =>
          Some (setActiveConversationId (Some (Conversation.id c))
                  (setConversations (c :: cs) s))
      | _ => None
      end
  | _ => Some (handleNewChat fresh s)
  end.

(** Mounting [App]: initial state, mount effect, then the session binder
    of the following render. *)
Definition startup (fresh : string) (stored : StoredHistory) : option State :=
  option_map sessionBinder (loadHistory fresh stored initialState).

(** *** The store as a transition system

    One action per operation of the conversation store, a send and an edit
    running to their end.  Audio playback, export, theme and voice are
    outside the conversation state machine and are not embedded. *)

Inductive Action :=
| NewChat (fresh : string)
| SelectConversation (id : string)
| RenameConversation (id newTitle : string)
| DeleteConversation (id fresh : string)
| ClearAllConversations (fresh : string)
| SetContext (newContext : string)
| SetMode (mode : ChatMode)
| SendMessage (uid mid prompt : string) (images : option (list string))
| EditMessage (messageId newText uid mid : string)
| GiveFeedback (messageId : string) (feedback : FeedbackTag)
| LocationGranted (coords : GeolocationCoordinates).

Definition handle (a : Action) (s : State) : State :=
  match a with
  | NewChat fresh => handleNewChat fresh s
  | SelectConversation id => handleSelectConversation id s
  | RenameConversation id newTitle => handleRenameConversation id newTitle s
  | DeleteConversation id fresh => handleDeleteConversation id fresh s
  | ClearAllConversations fresh => handleClearAllConversations fresh s
  | SetContext newContext => handleSetContext newContext s
  | SetMode mode => handleSetMode mode s
  | SendMessage uid mid prompt images => handleSendMessage uid mid prompt images s
  | EditMessage messageId newText uid mid => editThenSend messageId newText uid mid s
  | GiveFeedback messageId feedback => handleFeedback messageId feedback s
  | LocationGranted coords => setError None (setLocation (Some coords) s)
  end.

(** A handler followed by the session binder of the render it causes.
    React re-runs the binder only when the memoised [activeConversation]
    changed; the binder being a function of that value alone, and the only
    writer of [chatSession], running it after every handler gives the same
    state on every state that came out of [startup] or [step]. *)
Definition step (a : Action) (s : State) : State := sessionBinder (handle a s).

Definition run (l : list Action) (s : State) : State :=
  fold_left (fun s a => step a s) l s.

Inductive reachable : State -> Prop :=
| reachable_startup fresh stored s :
    startup fresh stored = Some s -> reachable s
| reachable_step a s :
    reachable s -> reachable (step a s).

End WithEnvironment.
End App.

(** ** [App.tsx] and [geminiService.ts]: speech playback *)

Module Playback.



(** [{ ...m, isPlaying: b }] *)
Definition withIsPlaying (m : Message) (b : bool) : Message :=
  Message.mk (Message.id m) (Message.role m) (Message.text m) (Message.sources m)
    (Some b) (Message.images m) (Message.feedback m).

(** The updater shared by the three [setConversations] of
    [handlePlayAudio]. *)
Definition markPlaying (activeId : option string) (messageId : string) (b : bool)
    (l : list Conversation) : list Conversation :=
  App.mapActive activeId
    (fun c =>
       Conversation.withMessages c
         (map (fun m => if (Message.id m =? messageId)%string
                        then withIsPlaying m b else m)
            (Conversation.messages c)))
    l.



(** The [onended] callback. *)
Definition playEnded (cl : App.State) (messageId : string) (s : App.State) : App.State :=
  App.setConversations
    (markPlaying (App.activeConversationId cl) messageId false (App.conversations s)) s.



End Playback.

(** ** [App.tsx]: the speech voice *)

Module Voice.

(** [ttsVoices]: name and label. *)
Definition ttsVoices : list (string * string) :=
  [("Kore", "Female (US)"); ("Puck", "Male (US)"); ("Charon", "Male (UK)");
   ("Zephyr", "Female (UK)"); ("Fenrir", "Male (AU)")].

(** [ttsVoices.find(v => v.name === voice)?.label] *)
Definition labelOf (voice : string) : option string :=
  option_map snd (find (fun v => (fst v =? voice)%string) ttsVoices).

(** The [useState] value followed by the mount effect that reads
    [localStorage.getItem('ttsVoice')]. *)
Definition mountVoice (storedVoice : option string) : string :=
  match storedVoice with
  | Some v =>
      if Js.truthy v && existsb (fun x => (fst x =? v)%string) ttsVoices
      then v else "Kore"
  | None => "Kore"
  end.

(** The effect on [[ttsVoice]]: what the key holds once it ran. *)
Definition storedAfter (ttsVoice : string) : option string := Some ttsVoice.

(** [handleTtsVoiceChange]: the new voice and the confirmation shown. *)
Definition handleTtsVoiceChange (newVoice : string) : string * option string :=
  (newVoice,
   match labelOf newVoice with
   | Some voiceLabel =>
       if Js.truthy voiceLabel then Some ("TTS voice set to " ++ voiceLabel)%string
       else None
   | None => None
   end).

End Voice.

(** ** [components/ChatInput.tsx] *)

Module ChatInput.

(** The component state; [isRecording] belongs to speech recognition and
    is left out. *)
Record State := mkState {
  input : string;
  imagePreviews : list string;
  imageError : option string
}.

(** A [File] with what the browser will tell about it: its reader fires
    at instant [readAt], with the data URL ([onload]) or without
    ([onerror]). *)
Record File := mkFile {
  name : string;
  type : string;
  size : Z;
  readAt : nat;
  readResult : option string
}.

Definition allowedTypes : list string :=
  ["image/jpeg"; "image/png"; "image/webp"; "image/gif"].
Definition maxFiles : Z := 5.
Definition maxSizeInMB : Z := 5.

(** The rejection a file's promise meets inside its executor, before any
    reading. *)
Definition rejectedNow (file : File) : option string :=
  if negb (existsb (fun t => (t =? type file)%string) allowedTypes) then
    Some "Invalid file type. Please select JPG, PNG, WEBP, or GIF."
  else if size file >? maxSizeInMB * 1024 * 1024 then
    Some ("File " ++ GeminiService.quote ++ name file ++ GeminiService.quote
            ++ " is too large. Maximum size is 5MB.")%string
  else None.

Definition readErrorMessage (file : File) : string :=
  ("Failed to read " ++ GeminiService.quote ++ name file ++ GeminiService.quote
     ++ ". It might be corrupted.")%string.

Fixpoint firstRejectedNow (files : list File) : option string :=
  match files with
  | [] => None
  | f :: r =>
      match rejectedNow f with
      | Some m => Some m
      | None => firstRejectedNow r
      end
  end.

(** The reader error that fires first, with its instant. *)
Fixpoint earliestReadError (files : list File) : option (nat * string) :=
  match files with
  | [] => None
  | f :: r =>
      match readResult f, earliestReadError r with
      | Some _, rest => rest
      | None, Some (t, m) =>
          if (t <? readAt f)%nat then Some (t, m) else Some (readAt f, readErrorMessage f)
      | None, None => Some (readAt f, readErrorMessage f)
      end
  end.

(** [Promise.all(filePromises)]: rejected by the first rejection to
    happen (those of the executors come first, in array order), fulfilled
    with the data URLs in array order otherwise. *)
Definition promiseAll (files : list File) : Js.Settled (list string) :=
  match firstRejectedNow files with
  | Some m => Js.Rejected (Js.mkError (Some m))
  | None =>
      match earliestReadError files with
      | Some (_, m) => Js.Rejected (Js.mkError (Some m))
      | None =>
          Js.Fulfilled (map (fun f => match readResult f with
                                      | Some url => url
                                      | None => ""
                                      end) files)
      end
  end.

(** [handleImageChange] with its promise settled; [files] is
    [e.target.files]. *)
Definition handleImageChange (files : option (list File)) (st : State) : State :=
  let st := mkState (input st) (imagePreviews st) None in
  match files with
  | None => st
  | Some [] => st
  | Some l =>
      if Js.len (imagePreviews st) + Js.len l >? maxFiles then
        mkState (input st) (imagePreviews st)
          (Some "You can upload a maximum of 5 images.")
      else
        match promiseAll l with
        | Js.Fulfilled newPreviews =>
            mkState (input st) (imagePreviews st ++ newPreviews) (imageError st)
        | Js.Rejected err => mkState (input st) (imagePreviews st) (Js.message err)
        end
  end.

(** [prev.filter((_, index) => index !== indexToRemove)] *)
Fixpoint removeIndex {A} (l : list A) (index indexToRemove : Z) : list A :=
  match l with
  | [] => []
  | x :: r =>
      if index =? indexToRemove then removeIndex r (index + 1) indexToRemove
      else x :: removeIndex r (index + 1) indexToRemove
  end.

Definition handleRemoveImage (indexToRemove : Z) (st : State) : State :=
  mkState (input st) (removeIndex (imagePreviews st) 0 indexToRemove)
    (if Js.truthyOpt (imageError st) then None else imageError st).


End ChatInput.

(** ** [components/MessageItem.tsx] *)

Module MessageItem.

(** [!message.images?.length] *)
Definition noImages (message : Message) : bool :=
  match Message.images message with
  | Some l => Js.len l =? 0
  | None => true
  end.

(** [handleSaveAndSubmit]: the call of [onEditMessage], if any. *)
Definition handleSaveAndSubmit (isLoading : bool) (message : Message)
    (editedText : string) : option (string * string) :=
  if isLoading
     || (GeminiService.trim editedText =? GeminiService.trim (Message.text message))%string
     || (negb (Js.truthy (GeminiService.trim editedText)) && noImages message)
  then None
  else Some (Message.id message, GeminiService.trim editedText).

End MessageItem.

(** ** [App.tsx]: export *)

Module ExportFile.

(** [String.prototype.toLowerCase] on a code unit below 256. *)
Definition toLowerCaseUnit (c : ascii) : ascii :=
  let n := nat_of_ascii c in
  if ((65 <=? n) && (n <=? 90))%nat
     || ((192 <=? n) && (n <=? 222) && negb (n =? 215))%nat
  then ascii_of_nat (n + 32) else c.

Fixpoint toLowerCase (s : string) : string :=
  match s with
  | EmptyString => EmptyString
  | String c r => String (toLowerCaseUnit c) (toLowerCase r)
  end.

(** A code unit the class [[a-z0-9]] matches under the [i] flag. *)
Definition isAlnum (c : ascii) : bool :=
  let n := nat_of_ascii c in
  (((97 <=? n) && (n <=? 122)) || ((65 <=? n) && (n <=? 90))
   || ((48 <=? n) && (n <=? 57)))%nat.

(** [title.replace(/[^a-z0-9]/gi, '_')] *)
Fixpoint replaceOthers (s : string) : string :=
  match s with
  | EmptyString => EmptyString
  | String c r => String (if isAlnum c then c else "_"%char) (replaceOthers r)
  end.

Definition fileName (title : string) : string :=
  (Js.orElse (toLowerCase (replaceOthers title)) "conversation" ++ ".txt")%string.

Definition roleUpper (r : Role) : string :=
  match r with
  | USER => "USER"
  | MODEL => "MODEL"
  end.

Definition modeName (m : ChatMode) : string :=
  match m with
  | CHAT => "CHAT"
  | THINKING => "THINKING"
  | MAPS => "MAPS"
  end.

Definition decimal (n : nat) : string := NilEmpty.string_of_uint (Nat.to_uint n).

(** One pass of the [messages.slice(1).forEach] body. *)
Definition messageBlock (msg : Message) : string :=
  (("[" ++ roleUpper (Message.role msg) ++ "]" ++ Js.nl)
   ++ match Message.images msg with
      | Some (x :: l) =>
          "(" ++ decimal (length (x :: l)) ++ " image(s) attached)" ++ Js.nl
      | _ => ""
      end
   ++ (Message.text msg ++ Js.nl ++ Js.nl)
   ++ match Message.sources msg with
      | Some (x :: l) =>
          "Sources:" ++ Js.nl
          ++ fold_left (fun acc source =>
                          acc ++ "- " ++ title source ++ ": " ++ uri source ++ Js.nl)
               (x :: l) ""
          ++ Js.nl
      | _ => ""
      end)%string.

Definition content (title : string) (mode : ChatMode) (currentContext : string)
    (messages : list Message) : string :=
  fold_left (fun acc msg => (acc ++ messageBlock msg)%string)
    (Js.sliceFrom messages 1)
    (("# Conversation: " ++ title ++ Js.nl)
     ++ ("Mode: " ++ modeName mode ++ Js.nl ++ Js.nl)
     ++ ("--- CONTEXT ---" ++ Js.nl ++ Js.orElse currentContext "No context provided."
         ++ Js.nl ++ "--- END CONTEXT ---" ++ Js.nl ++ Js.nl)
     ++ ("--- MESSAGES ---" ++ Js.nl ++ Js.nl))%string.

(** [handleExportConversation]: the state left and the file handed to the
    browser (name and text), if any. *)
Definition handleExportConversation (s : App.State)
  : App.State * option (string * string) :=
  match App.activeConversation s with
  | None => (App.setError (Some "No active conversation to export.") s, None)
  | Some c =>
      (s, Some (fileName (Conversation.title c),
                content (Conversation.title c) (Conversation.mode c) (App.context s)
                  (Conversation.messages c)))
  end.

End ExportFile.

(** ** Vocabulary of the statements *)

(** A string cut at the first occurrence of [sep]: the text before it
    and, when [sep] occurs, the text after it. *)
Fixpoint cutAtFirst (sep : ascii) (s : string) : string * option string :=
  match s with
  | EmptyString => (EmptyString, None)
  | String c r =>
      if Ascii.eqb c sep then (EmptyString, Some r)
      else (String c (fst (cutAtFirst sep r)), snd (cutAtFirst sep r))
  end.

(** The four places where images become inline parts. *)
Inductive ConversionSite :=
| SessionRebuild (msg : Message)
| PlainSend (images : option (list string)) (fullContext : string)
| ThinkingCall (prompt context : string) (images : option (list string))
| MapsCall (prompt context : string) (images : option (list string)).

Definition imagesOf (images : option (list string)) : list string :=
  match images with
  | Some l => l
  | None => []
  end.

Definition siteImages (site : ConversionSite) : list string :=
  match site with
  | SessionRebuild msg => imagesOf (Message.images msg)
  | PlainSend images _ => imagesOf images
  | ThinkingCall _ _ images => imagesOf images
  | MapsCall _ _ images => imagesOf images
  end.

Definition siteParts (site : ConversionSite) : list Part :=
  match site with
  | SessionRebuild msg => parts (App.toContent msg)
  | PlainSend images fullContext => App.chatUserParts images fullContext
  | ThinkingCall prompt context images =>
      GeminiService.serviceUserParts prompt context images
  | MapsCall prompt context images =>
      GeminiService.serviceUserParts prompt context images
  end.

(** A message carries no feedback: the property is [undefined] or [null]. *)
Definition noFeedback (m : Message) : Prop :=
  Message.feedback m = None \/ Message.feedback m = Some None.

Definition hasTag (t : FeedbackTag) (m : Message) : bool :=
  match Message.feedback m with
  | Some (Some f) => FeedbackTag_eqb f t
  | _ => false
  end.

(** The conversation that precedes a deleted one, whose neighbours in the
    list were [pre] and [post]; the first of the remaining list when
    nothing precedes. *)
Definition predecessorOrFirst (pre post : list Conversation) : option Conversation :=
  match rev pre with
  | p :: _ => Some p
  | [] => hd_error (pre ++ post)
  end.

(** The conversion of a message as C9 words it: the inline parts of its
    images followed by a text part, under the message's role. *)
Definition statedContent (msg : Message) : Content :=
  mkContent (Message.role msg)
    (pushImages (Message.images msg) [] ++ [TextPart (Message.text msg)]).

(** *** Sample data for the instances below *)

Module Sample.

(** A service whose every call is rejected. *)
Definition failing : Service :=
  mkService (fun _ => Js.Rejected (Js.mkError (Some "quota exceeded")))
            (fun _ _ => Js.Rejected (Js.mkError None)).

(** A service that answers. *)
Definition answering : Service :=
  mkService (fun _ => Js.Fulfilled (mkResponse "fine" None))
            (fun _ _ => Js.Fulfilled "fine").

(** The store right after a first start on an empty [localStorage]. *)
Definition booted : App.State :=
  App.sessionBinder (App.handleNewChat "g0" "c1" App.initialState).

(** The same store after a second "new chat". *)
Definition twoChats : App.State :=
  App.step "g0" answering (App.NewChat "c2") booted.

(** One exchange in the first conversation. *)
Definition oneExchange : App.State :=
  App.step "g0" answering (App.SendMessage "u1" "m1" "hello" None) booted.

(** A second exchange, and the conversation the store then holds. *)
Definition twoExchanges : App.State :=
  App.step "g0" answering (App.SendMessage "u2" "m2" "more" None) oneExchange.

Definition talk : Conversation :=
  Conversation.mk "c1" "hello..."
    [App.initialBotMessage "g0";
     App.userMessage "u1" "hello" None;
     Message.mk "m1" MODEL "fine" None None None None;
     App.userMessage "u2" "more" None;
     Message.mk "m2" MODEL "fine" None None None None]
    CHAT (Some "").

End Sample.

(** *** Vocabulary of the store invariants *)

Definition conversationIds (s : App.State) : list string :=
  map Conversation.id (App.conversations s).

(** The operations that add or remove conversations. *)
Definition structural (a : App.Action) : bool :=
  match a with
  | App.NewChat _ | App.DeleteConversation _ _ | App.ClearAllConversations _ => true
  | _ => false
  end.

(** The caller's side of [selectConversation]: the sidebar passes the
    identifier of a conversation it lists. *)
Definition selectsListed (a : App.Action) (s : App.State) : Prop :=
  match a with
  | App.SelectConversation id => In id (conversationIds s)
  | _ => True
  end.

(** The identifier an action draws for a new conversation is not in use.
    [handleDeleteConversation] draws one only on its way to
    [handleNewChat]. *)
Definition drawsFresh (a : App.Action) (s : App.State) : Prop :=
  match a with
  | App.NewChat fresh | App.DeleteConversation _ fresh => ~ In fresh (conversationIds s)
  | _ => True
  end.

Definition greetingText : string := Message.text (App.initialBotMessage "").

(** A conversation opens with the greeting: a model message with the
    fixed text. *)
Definition opensWithGreeting (c : Conversation) : Prop :=
  exists g rest,
    Conversation.messages c = g :: rest /\
    Message.role g = MODEL /\ Message.text g = greetingText.

(** A function on conversations that keeps identifier, mode and context
    and appends at most [n] messages. *)
Definition extendsBy (n : nat) (f : Conversation -> Conversation) : Prop :=
  forall c,
    Conversation.id (f c) = Conversation.id c /\
    Conversation.mode (f c) = Conversation.mode c /\
    Conversation.context (f c) = Conversation.context c /\
    exists added,
      Conversation.messages (f c) = Conversation.messages c ++ added /\
      (length added <= n)%nat.

(** The model message a settled dispatch leaves in the history: the
    [modelMessage] of the [try], the [errorBotMessage] of the [catch]. *)
Definition replyMessage (mid : string) (outcome : Js.Settled App.Reply) : Message :=
  match outcome with
  | Js.Fulfilled (responseText, responseSources) =>
      Message.mk mid MODEL responseText responseSources None None None
  | Js.Rejected err => Message.mk mid MODEL (App.errorMessage err) None None None None
  end.


(** A file [handleImageChange] accepts: allowed type, at most 5 MiB, and
    a reader that delivers. *)
Definition acceptable (f : ChatInput.File) : Prop :=
  In (ChatInput.type f) ChatInput.allowedTypes /\
  ChatInput.size f <= 5242880 /\
  ChatInput.readResult f <> None.

(** A lower-case letter, a digit or an underscore. *)
Definition isSafeUnit (c : ascii) : bool :=
  let n := nat_of_ascii c in
  (((97 <=? n) && (n <=? 122)) || ((48 <=? n) && (n <=? 57)) || (n =? 95))%nat.


(** A stored value from which the mount effect loads a list. *)
Definition holdsList (stored : StoredHistory) : bool :=
  match stored with
  | Parsed (Json.JArray (_ :: _)) => true
  | _ => false
  end.

(** ** Facts about the JavaScript functions *)

Section JsFacts.

Lemma truthy_true (s : string) : Js.truthy s = true <-> s <> EmptyString.
Proof.
  unfold Js.truthy. destruct (String.eqb_spec s ""); simpl; split; congruence.
Qed.

Lemma split_not_nil (sep : ascii) (s : string) : Js.split sep s <> [].
Proof.
  destruct s as [|c r]; simpl; [discriminate|].
  destruct (Ascii.eqb c sep); [discriminate|].
  destruct (Js.split sep r); discriminate.
Qed.

Lemma split_head (sep : ascii) (s : string) :
  nth 0 (Js.split sep s) EmptyString = fst (cutAtFirst sep s).
Proof.
  induction s as [|c r IH]; simpl; [reflexivity|].
  destruct (Ascii.eqb c sep); simpl; [reflexivity|].
  rewrite <- IH. destruct (Js.split sep r) eqn:E; simpl; [|reflexivity].
  exfalso. exact (split_not_nil _ _ E).
Qed.

Lemma split_tail (sep : ascii) (s : string) :
  tl (Js.split sep s) =
  match snd (cutAtFirst sep s) with
  | Some rest => Js.split sep rest
  | None => []
  end.
Proof.
  induction s as [|c r IH]; simpl; [reflexivity|].
  destruct (Ascii.eqb c sep); simpl; [reflexivity|].
  rewrite <- IH. destruct (Js.split sep r) eqn:E; simpl; [|reflexivity].
  exfalso. exact (split_not_nil _ _ E).
Qed.

(** The second piece of a split is the text between the first and the
    second separator. *)
Lemma split_second (sep : ascii) (s d : string) :
  nth_error (Js.split sep s) 1 = Some d ->
  exists rest, snd (cutAtFirst sep s) = Some rest /\ d = fst (cutAtFirst sep rest).
Proof.
  intros H.
  assert (T : nth_error (tl (Js.split sep s)) 0 = Some d).
  { destruct (Js.split sep s) as [|h t]; [discriminate|exact H]. }
  rewrite split_tail in T.
  destruct (snd (cutAtFirst sep s)) as [rest|]; [|discriminate].
  exists rest. split; [reflexivity|].
  rewrite <- split_head.
  destruct (Js.split sep rest) as [|h t] eqn:E; [discriminate|].
  simpl in *. congruence.
Qed.

Lemma cut_head_nonempty (sep : ascii) (rest : string) :
  fst (cutAtFirst sep rest) <> EmptyString -> rest <> EmptyString.
Proof. destruct rest; simpl; congruence. Qed.

Lemma inlinePart_Some (image : string) (p : Part) :
  inlinePart image = Some p ->
  exists data mime rest,
    p = InlineData data mime /\ data <> EmptyString /\ mime <> EmptyString /\
    Js.matchMime (fst (cutAtFirst "," image)) = Some mime /\
    snd (cutAtFirst "," image) = Some rest /\ rest <> EmptyString /\
    data = fst (cutAtFirst "," rest).
Proof.
  unfold inlinePart. rewrite split_head.
  destruct (nth_error (Js.split "," image) 1) as [d|] eqn:Ed; simpl; [|discriminate].
  destruct (Js.matchMime (fst (cutAtFirst "," image))) as [m|] eqn:Em; simpl;
    [|rewrite andb_false_r; discriminate].
  destruct (Js.truthy d) eqn:Td; simpl; [|discriminate].
  destruct (Js.truthy m) eqn:Tm; simpl; [|discriminate].
  intros [= <-].
  apply truthy_true in Td, Tm.
  destruct (split_second _ _ _ Ed) as (rest & Hr & Hd).
  exists d, m, rest. repeat split; auto.
  apply (cut_head_nonempty ","). congruence.
Qed.

Lemma pushImages_app (images : option (list string)) (acc : list Part) :
  pushImages images acc =
  acc ++ flat_map (fun image => match inlinePart image with
                                | Some p => [p]
                                | None => []
                                end) (imagesOf images).
Proof.
  destruct images as [l|]; simpl; [|now rewrite app_nil_r].
  revert acc. induction l as [|image l IH]; intros acc; simpl.
  - now rewrite app_nil_r.
  - rewrite IH. destruct (inlinePart image); simpl.
    + now rewrite <- app_assoc.
    + reflexivity.
Qed.

Lemma pushImages_In (images : option (list string)) (acc : list Part) (p : Part) :
  In p (pushImages images acc) ->
  In p acc \/ exists image, In image (imagesOf images) /\ inlinePart image = Some p.
Proof.
  rewrite pushImages_app. intros H. apply in_app_or in H.
  destruct H as [H|H]; [now left|right].
  apply in_flat_map in H. destruct H as (image & Hi & Hp).
  exists image. split; [assumption|].
  destruct (inlinePart image) as [q|]; simpl in Hp; [|contradiction].
  destruct Hp as [->|[]]. reflexivity.
Qed.

End JsFacts.

(** ** Image conversion *)

Lemma site_inline_origin (site : ConversionSite) (data mime : string) :
  In (InlineData data mime) (siteParts site) ->
  exists image, In image (siteImages site) /\
                inlinePart image = Some (InlineData data mime).
Proof.
  destruct site as [msg|images fc|prompt ctx images|prompt ctx images];
    cbn [siteParts siteImages App.toContent App.chatUserParts
         GeminiService.serviceUserParts parts].
  - destruct (Js.truthy (Message.text msg)).
    + intros H. apply in_app_or in H. destruct H as [H|[H|[]]]; [|discriminate].
      apply pushImages_In in H. destruct H as [[]|H]. exact H.
    + intros H. apply pushImages_In in H. destruct H as [[]|H]. exact H.
  - unfold App.chatUserParts. destruct (Js.truthy fc).
    + intros H. apply in_app_or in H. destruct H as [H|[H|[]]]; [|discriminate].
      apply pushImages_In in H. destruct H as [[]|H]. exact H.
    + intros H. apply pushImages_In in H. destruct H as [[]|H]. exact H.
  - unfold GeminiService.serviceUserParts. intros H.
    apply pushImages_In in H. destruct H as [[H|[]]|H]; [discriminate|exact H].
  - unfold GeminiService.serviceUserParts. intros H.
    apply pushImages_In in H. destruct H as [[H|[]]|H]; [discriminate|exact H].
Qed.

(** C10.  At each of the four conversion sites (session rebuild,
    plain-mode send, thinking call, grounded call) the conversion is a
    total function of the images, and every inline part it produces comes
    from an image of the list that passed both checks: the text before the
    image's first comma yields the part's MIME type through the regular
    expression, the text after that comma is not empty and starts with the
    part's payload, and neither the MIME type nor the payload of the part
    is empty.  An image failing a check therefore contributes nothing. *)
Theorem image_conversion_is_guarded (site : ConversionSite) (data mime : string) :
  In (InlineData data mime) (siteParts site) ->
  data <> EmptyString /\ mime <> EmptyString /\
  exists image rest,
    In image (siteImages site) /\
    Js.matchMime (fst (cutAtFirst "," image)) = Some mime /\
    snd (cutAtFirst "," image) = Some rest /\ rest <> EmptyString /\
    data = fst (cutAtFirst "," rest).
Proof.
  intros H. destruct (site_inline_origin _ _ _ H) as (image & Hin & Hp).
  destruct (inlinePart_Some _ _ Hp) as (d & m & rest & E & Hd & Hm & Hmm & Hr & Hne & Hdd).
  injection E as -> ->.
  repeat split; try assumption.
  exists image, rest. repeat split; assumption.
Qed.

Lemma image_conversion_is_guarded_witness :
  In (InlineData "AAAA" "image/png")
     (siteParts (PlainSend (Some ["no-comma"; "data:image/png;base64,AAAA"]) "hi")) /\
  ("AAAA" <> EmptyString /\ "image/png" <> EmptyString /\
   exists image rest,
     In image (siteImages (PlainSend (Some ["no-comma"; "data:image/png;base64,AAAA"]) "hi")) /\
     Js.matchMime (fst (cutAtFirst "," image)) = Some "image/png" /\
     snd (cutAtFirst "," image) = Some rest /\ rest <> EmptyString /\
     "AAAA" = fst (cutAtFirst "," rest)).
Proof.
  assert (H : In (InlineData "AAAA" "image/png")
                (siteParts (PlainSend (Some ["no-comma"; "data:image/png;base64,AAAA"]) "hi"))).
  { vm_compute. left. reflexivity. }
  split; [exact H|].
  exact (image_conversion_is_guarded _ _ _ H).
Defined.

(** ** Guards of [handleSendMessage] *)

Lemma handleSendMessage_guarded (ai : Service) (uid mid prompt : string)
    (images : option (list string)) (s : App.State) :
  App.sendGuard s prompt images = true ->
  App.handleSendMessage ai uid mid prompt images s = s.
Proof.
  intros H. unfold App.handleSendMessage, App.handleSendMessageFrom. now rewrite H.
Qed.

(** C8.  [sendMessage] leaves the conversation list, the message count of
    every conversation and the in-flight flag as they were when the prompt
    is empty and no image is supplied (images absent or an empty array),
    or a send is in flight, or no conversation is active. *)
Theorem send_is_noop_when_guarded (ai : Service) (uid mid prompt : string)
    (images : option (list string)) (s : App.State) :
  (prompt = EmptyString /\ (images = None \/ images = Some []))
  \/ App.isLoading s = true
  \/ App.activeConversation s = None ->
  let s' := App.handleSendMessage ai uid mid prompt images s in
  App.conversations s' = App.conversations s /\
  map (fun c => length (Conversation.messages c)) (App.conversations s') =
    map (fun c => length (Conversation.messages c)) (App.conversations s) /\
  App.isLoading s' = App.isLoading s.
Proof.
  intros H s'. subst s'.
  rewrite handleSendMessage_guarded; [repeat split|].
  unfold App.sendGuard.
  destruct H as [[-> Hi] | [-> | ->] ].
  - destruct Hi as [-> | ->]; reflexivity.
  - now rewrite orb_true_r.
  - now rewrite !orb_true_r.
Qed.

Lemma send_is_noop_when_guarded_witness :
  let s' := App.handleSendMessage Sample.answering "u1" "m1" "" (Some []) Sample.booted in
  App.conversations s' = App.conversations Sample.booted /\
  map (fun c => length (Conversation.messages c)) (App.conversations s') =
    map (fun c => length (Conversation.messages c)) (App.conversations Sample.booted) /\
  App.isLoading s' = App.isLoading Sample.booted.
Proof.
  apply (send_is_noop_when_guarded Sample.answering "u1" "m1" "" (Some []) Sample.booted).
  left. split; [reflexivity|right; reflexivity].
Defined.

(** ** Selecting a conversation *)

(** C6 as stated fails: selecting an identifier that no conversation of the
    list carries moves the active pointer to that identifier. *)
Lemma select_absent_moves_pointer :
  App.reachable "g0" Sample.answering Sample.booted /\
  (forall c, In c (App.conversations Sample.booted) -> Conversation.id c <> "zz") /\
  App.activeConversationId (App.handleSelectConversation "zz" Sample.booted)
    <> App.activeConversationId Sample.booted.
Proof.
  split; [|split].
  - apply (App.reachable_startup "g0" Sample.answering "c1" Missing). reflexivity.
  - intros c [<-|[]]. discriminate.
  - discriminate.
Qed.

Lemma find_none_of_absent (id : string) (l : list Conversation) :
  (forall c, In c l -> Conversation.id c <> id) ->
  find (App.isActive (Some id)) l = None.
Proof.
  intros H. induction l as [|c l IH]; simpl; [reflexivity|].
  destruct (String.eqb_spec id (Conversation.id c)) as [E|_].
  - exfalso. apply (H c); [now left|now symmetry].
  - apply IH. intros c' Hc'. apply H. now right.
Qed.

(** C6, amended.  For an identifier that no conversation of the list
    carries, [selectConversation] leaves the conversation list unchanged
    and sets the active pointer to that identifier all the same, so that no
    conversation is active afterwards. *)
Theorem select_absent_sets_pointer (id : string) (s : App.State) :
  (forall c, In c (App.conversations s) -> Conversation.id c <> id) ->
  let s' := App.handleSelectConversation id s in
  App.conversations s' = App.conversations s /\
  App.activeConversationId s' = Some id /\
  App.activeConversation s' = None.
Proof.
  intros H s'. subst s'. repeat split.
  unfold App.activeConversation. simpl. now apply find_none_of_absent.
Qed.

Lemma select_absent_sets_pointer_witness :
  let s' := App.handleSelectConversation "zz" Sample.booted in
  App.conversations s' = App.conversations Sample.booted /\
  App.activeConversationId s' = Some "zz" /\
  App.activeConversation s' = None.
Proof.
  apply (select_absent_sets_pointer "zz" Sample.booted).
  intros c [<-|[]]. discriminate.
Defined.

(** ** Deleting a conversation *)

Lemma delete_sole_active (greetingId fresh : string) (c : Conversation) (s : App.State) :
  App.conversations s = [c] ->
  App.activeConversationId s = Some (Conversation.id c) ->
  App.handleDeleteConversation greetingId (Conversation.id c) fresh s =
  App.handleNewChat greetingId fresh s.
Proof.
  intros Hc Ha. unfold App.handleDeleteConversation.
  rewrite Hc, Ha. simpl. rewrite String.eqb_refl. reflexivity.
Qed.

(** C1 at its failing input: deleting the only conversation of a freshly
    started store, which is the active one, leaves two conversations, the
    new one followed by the conversation that was to be deleted. *)
Theorem delete_sole_conversation_keeps_it :
  App.startup "g0" "c1" Missing = Some Sample.booted /\
  App.conversations Sample.booted = [App.newConversation "g0" "c1"] /\
  App.activeConversationId Sample.booted = Some "c1" /\
  App.conversations (App.handleDeleteConversation "g0" "c1" "c2" Sample.booted) =
    [App.newConversation "g0" "c2"; App.newConversation "g0" "c1"].
Proof. repeat split. Qed.

(** ** Facts about the active conversation *)

Section ActiveFacts.

Variable activeId : option string.

Lemma find_mapActive (f : Conversation -> Conversation) (l : list Conversation) :
  (forall c, Conversation.id (f c) = Conversation.id c) ->
  find (App.isActive activeId) (App.mapActive activeId f l) =
  option_map f (find (App.isActive activeId) l).
Proof.
  intros Hf. induction l as [|c l IH]; simpl; [reflexivity|].
  destruct (App.isActive activeId c) eqn:E.
  - unfold App.isActive in *. rewrite Hf, E. reflexivity.
  - rewrite E. exact IH.
Qed.

End ActiveFacts.

(** ** Feedback *)

Lemma toggle_once (mid : string) (t : FeedbackTag) (m : Message) :
  Message.id m = mid ->
  Message.feedback (App.toggleFeedback mid t m) =
  Some (if hasTag t m then None else Some t).
Proof.
  intros <-. unfold App.toggleFeedback, hasTag. rewrite String.eqb_refl.
  destruct (Message.feedback m) as [[f|]|]; simpl; try reflexivity.
Qed.

Lemma toggle_id (mid : string) (t : FeedbackTag) (m : Message) :
  Message.id (App.toggleFeedback mid t m) = Message.id m.
Proof. unfold App.toggleFeedback. destruct (_ =? _)%string; reflexivity. Qed.

Lemma toggle_twice (mid : string) (t : FeedbackTag) (m : Message) :
  Message.id m = mid ->
  Message.feedback (App.toggleFeedback mid t (App.toggleFeedback mid t m)) =
  Some (if hasTag t m then Some t else None).
Proof.
  intros E. rewrite toggle_once by (now rewrite toggle_id).
  unfold hasTag at 1. rewrite toggle_once by assumption.
  destruct (hasTag t m); [reflexivity|].
  destruct t; reflexivity.
Qed.

Lemma handleFeedback_active (mid : string) (t : FeedbackTag) (s : App.State)
    (c : Conversation) :
  Js.truthyOpt (App.activeConversationId s) = true ->
  App.activeConversation s = Some c ->
  Js.truthyOpt (App.activeConversationId (App.handleFeedback mid t s)) = true /\
  App.activeConversation (App.handleFeedback mid t s) =
  Some (Conversation.withMessages c
          (map (App.toggleFeedback mid t) (Conversation.messages c))).
Proof.
  intros Ht Hc. unfold App.handleFeedback. rewrite Ht. simpl. split; [exact Ht|].
  unfold App.activeConversation in *. simpl.
  rewrite find_mapActive by reflexivity. now rewrite Hc.
Qed.

(** C5 as stated fails: on a message that already carries the tag, two
    further applications of the same tag bring the tag back.  The store is
    the one reached by one exchange followed by a thumbs-up on the reply. *)
Lemma feedback_pair_restores_tag :
  let s0 := App.step "g0" Sample.answering (App.GiveFeedback "m1" up) Sample.oneExchange in
  App.reachable "g0" Sample.answering s0 /\
  exists c m,
    App.activeConversation (App.handleFeedback "m1" up (App.handleFeedback "m1" up s0)) = Some c /\
    In m (Conversation.messages c) /\ Message.id m = "m1" /\ ~ noFeedback m.
Proof.
  split.
  { do 2 apply App.reachable_step.
    apply (App.reachable_startup "g0" Sample.answering "c1" Missing). reflexivity. }
  eexists. eexists. split; [vm_compute; reflexivity|].
  split; [right; right; left; reflexivity|].
  split; [reflexivity|].
  intros [H|H]; discriminate H.
Qed.

(** C5, amended.  In the active conversation, one application of
    [setFeedback(id, t)] leaves the message [id] with a single feedback
    value: [t], or none when it carried [t] before.  Two applications in
    succession leave it with no feedback ([null]) when it did not carry [t]
    before, and with [t] again when it did. *)
Theorem feedback_toggle_pair (mid : string) (t : FeedbackTag) (s : App.State)
    (c : Conversation) :
  Js.truthyOpt (App.activeConversationId s) = true ->
  App.activeConversation s = Some c ->
  exists c1 c2,
    App.activeConversation (App.handleFeedback mid t s) = Some c1 /\
    App.activeConversation (App.handleFeedback mid t (App.handleFeedback mid t s)) = Some c2 /\
    Conversation.messages c1 = map (App.toggleFeedback mid t) (Conversation.messages c) /\
    Conversation.messages c2 =
      map (fun m => App.toggleFeedback mid t (App.toggleFeedback mid t m))
        (Conversation.messages c) /\
    forall m, Message.id m = mid ->
      Message.feedback (App.toggleFeedback mid t m) =
        Some (if hasTag t m then None else Some t) /\
      Message.feedback (App.toggleFeedback mid t (App.toggleFeedback mid t m)) =
        Some (if hasTag t m then Some t else None) /\
      (hasTag t m = false ->
       noFeedback (App.toggleFeedback mid t (App.toggleFeedback mid t m))).
Proof.
  intros Ht Hc.
  destruct (handleFeedback_active mid t s c Ht Hc) as [Ht1 Hc1].
  destruct (handleFeedback_active mid t _ _ Ht1 Hc1) as [_ Hc2].
  eexists. eexists. split; [exact Hc1|]. split; [exact Hc2|].
  split; [reflexivity|]. split; [simpl; now rewrite map_map|].
  intros m Hm. split; [now apply toggle_once|]. split; [now apply toggle_twice|].
  intros Hn. right. rewrite toggle_twice by assumption. now rewrite Hn.
Qed.

Lemma feedback_toggle_pair_witness :
  exists c1 c2,
    App.activeConversation (App.handleFeedback "m1" down Sample.oneExchange) = Some c1 /\
    App.activeConversation
      (App.handleFeedback "m1" down (App.handleFeedback "m1" down Sample.oneExchange))
      = Some c2 /\
    Conversation.messages c1 =
      map (App.toggleFeedback "m1" down)
        [App.initialBotMessage "g0"; App.userMessage "u1" "hello" None;
         Message.mk "m1" MODEL "fine" None None None None] /\
    Conversation.messages c2 =
      map (fun m => App.toggleFeedback "m1" down (App.toggleFeedback "m1" down m))
        [App.initialBotMessage "g0"; App.userMessage "u1" "hello" None;
         Message.mk "m1" MODEL "fine" None None None None] /\
    forall m, Message.id m = "m1" ->
      Message.feedback (App.toggleFeedback "m1" down m) =
        Some (if hasTag down m then None else Some down) /\
      Message.feedback (App.toggleFeedback "m1" down (App.toggleFeedback "m1" down m)) =
        Some (if hasTag down m then Some down else None) /\
      (hasTag down m = false ->
       noFeedback (App.toggleFeedback "m1" down (App.toggleFeedback "m1" down m))).
Proof.
  exact (feedback_toggle_pair "m1" down Sample.oneExchange
           (Conversation.mk "c1" "hello..."
              [App.initialBotMessage "g0"; App.userMessage "u1" "hello" None;
               Message.mk "m1" MODEL "fine" None None None None] CHAT (Some ""))
           eq_refl eq_refl).
Defined.

(** ** Facts about [findIndex], indexing and [slice] *)

Section ArrayFacts.

Context {A : Type}.
Variable p : A -> bool.

Lemma findIndex_first (pre post : list A) (x : A) :
  forallb (fun y => negb (p y)) pre = true ->
  p x = true ->
  Js.findIndex p (pre ++ x :: post) = Js.len pre.
Proof.
  unfold Js.len. intros Hpre Hx. induction pre as [|y pre IH]; simpl.
  - now rewrite Hx.
  - simpl in Hpre. apply andb_true_iff in Hpre. destruct Hpre as [Hy Hpre].
    apply negb_true_iff in Hy. rewrite Hy, (IH Hpre).
    destruct (Z.ltb_spec (Z.of_nat (length pre)) 0); lia.
Qed.

Lemma find_split (l : list A) (c : A) :
  find p l = Some c ->
  exists pre post,
    l = pre ++ c :: post /\ forallb (fun y => negb (p y)) pre = true /\ p c = true.
Proof.
  induction l as [|x l IH]; simpl; [discriminate|].
  destruct (p x) eqn:E.
  - intros [= <-]. exists [], l. repeat split. exact E.
  - intros H. destruct (IH H) as (pre & post & -> & Hpre & Hc).
    exists (x :: pre), post. repeat split; [|exact Hc].
    simpl. now rewrite E, Hpre.
Qed.

Lemma at_middle (pre post : list A) (x : A) :
  Js.at_ (pre ++ x :: post) (Js.len pre) = Some x.
Proof.
  unfold Js.at_, Js.len.
  destruct (Z.ltb_spec (Z.of_nat (length pre)) 0); [lia|].
  rewrite Nat2Z.id, nth_error_app2 by lia. now rewrite Nat.sub_diag.
Qed.

Lemma slice_prefix (pre post : list A) :
  Js.slice (pre ++ post) 0 (Js.len pre) = pre.
Proof.
  unfold Js.slice, Js.relIndex, Js.len. rewrite length_app. simpl.
  destruct (Z.ltb_spec (Z.of_nat (length pre)) 0); [lia|].
  rewrite Z.min_l, Z.min_l by lia. simpl.
  rewrite Z.sub_0_r, Nat2Z.id, firstn_app, Nat.sub_diag, firstn_all. simpl.
  apply app_nil_r.
Qed.

Lemma sliceFrom_one (l : list A) : Js.sliceFrom l 1 = tl l.
Proof.
  unfold Js.sliceFrom, Js.slice, Js.relIndex, Js.len.
  destruct (Z.ltb_spec (Z.of_nat (length l)) 0); [lia|]. simpl.
  rewrite Z.min_id. destruct l as [|x l]; [reflexivity|].
  rewrite Z.min_l by (simpl length; lia).
  change (Z.to_nat 1) with 1%nat. simpl skipn.
  replace (Z.to_nat (Z.of_nat (length (x :: l)) - 1)) with (length l)
    by (simpl length; lia).
  apply firstn_all.
Qed.

Lemma assignAt_middle (pre post : list A) (x y : A) :
  Js.assignAt (pre ++ x :: post) (length pre) y = pre ++ y :: post.
Proof. induction pre as [|z pre IH]; simpl; [reflexivity|now rewrite IH]. Qed.

End ArrayFacts.

Lemma NoDup_ids_split (pre post : list Conversation) (c : Conversation) :
  NoDup (map Conversation.id (pre ++ c :: post)) ->
  (forall x, In x pre -> Conversation.id x <> Conversation.id c) /\
  (forall x, In x post -> Conversation.id x <> Conversation.id c).
Proof.
  rewrite map_app. simpl. intros H. apply NoDup_remove_2 in H.
  split; intros x Hx E; apply H, in_or_app; [left|right];
    rewrite <- E; now apply in_map.
Qed.

Lemma filter_keeps (id : string) (l : list Conversation) :
  (forall x, In x l -> Conversation.id x <> id) ->
  filter (fun c => negb (Conversation.id c =? id)%string) l = l.
Proof.
  intros H. induction l as [|x l IH]; simpl; [reflexivity|].
  destruct (String.eqb_spec (Conversation.id x) id) as [E|_]; simpl.
  - exfalso. apply (H x); [now left|exact E].
  - f_equal. apply IH. intros y Hy. apply H. now right.
Qed.

Lemma none_matches (id : string) (l : list Conversation) :
  (forall x, In x l -> Conversation.id x <> id) ->
  forallb (fun y => negb (Conversation.id y =? id)%string) l = true.
Proof.
  intros H. apply forallb_forall. intros x Hx.
  destruct (String.eqb_spec (Conversation.id x) id) as [E|_]; [|reflexivity].
  exfalso. exact (H x Hx E).
Qed.

Lemma at_predecessorOrFirst (pre post : list Conversation) :
  pre ++ post <> [] ->
  exists q, predecessorOrFirst pre post = Some q /\
            Js.at_ (pre ++ post) (Z.max 0 (Js.len pre - 1)) = Some q.
Proof.
  intros Hne. unfold predecessorOrFirst.
  destruct (rev pre) as [|q r] eqn:E.
  - assert (pre = []) as -> by (apply (f_equal (@rev _)) in E; now rewrite rev_involutive in E).
    simpl in *. destruct post as [|q post]; [contradiction|].
    exists q. split; reflexivity.
  - assert (pre = rev r ++ [q]) as ->
      by (apply (f_equal (@rev _)) in E; now rewrite rev_involutive in E).
    exists q. split; [reflexivity|].
    replace (Z.max 0 (Js.len (rev r ++ [q]) - 1)) with (Js.len (rev r))
      by (unfold Js.len; rewrite length_app; simpl; lia).
    rewrite <- app_assoc. apply at_middle.
Qed.

(** C7.  In a store of at least two conversations with distinct
    identifiers, deleting a conversation removes exactly that one; when it
    was the active one, the conversation just before it in the list becomes
    active, or the first of the remaining list when nothing precedes it;
    when it was not the active one, the active pointer stays. *)
Theorem delete_among_several (greetingId fresh : string) (s : App.State)
    (pre post : list Conversation) (c : Conversation) :
  App.conversations s = pre ++ c :: post ->
  NoDup (map Conversation.id (App.conversations s)) ->
  (2 <= length (App.conversations s))%nat ->
  let s' := App.handleDeleteConversation greetingId (Conversation.id c) fresh s in
  App.conversations s' = pre ++ post /\
  (App.activeConversationId s = Some (Conversation.id c) ->
   exists q, predecessorOrFirst pre post = Some q /\
             App.activeConversationId s' = Some (Conversation.id q)) /\
  (App.activeConversationId s <> Some (Conversation.id c) ->
   App.activeConversationId s' = App.activeConversationId s).
Proof.
  intros Hc Hnd Hlen s'.
  rewrite Hc in Hnd, Hlen.
  destruct (NoDup_ids_split _ _ _ Hnd) as [Hpre Hpost].
  assert (Hne : pre ++ post <> []).
  { rewrite length_app in Hlen. simpl in Hlen.
    destruct pre; [destruct post; [simpl in Hlen; lia|discriminate]|discriminate]. }
  assert (Hidx : Js.findIndex (fun x => (Conversation.id x =? Conversation.id c)%string)
                   (pre ++ c :: post) = Js.len pre).
  { apply findIndex_first; [|apply String.eqb_refl].
    now apply none_matches. }
  assert (Hfil : filter (fun x => negb (Conversation.id x =? Conversation.id c)%string)
                   (pre ++ c :: post) = pre ++ post).
  { rewrite filter_app. simpl. rewrite String.eqb_refl. simpl.
    now rewrite !filter_keeps. }
  assert (Hpos : (Js.len (pre ++ post) >? 0) = true).
  { unfold Js.len. destruct (pre ++ post); [contradiction|]. simpl length.
    apply Z.gtb_lt. lia. }
  subst s'. unfold App.handleDeleteConversation. rewrite Hc, Hidx, Hfil.
  assert (Hm : (Js.len pre =? -1) = false) by (apply Z.eqb_neq; unfold Js.len; lia).
  rewrite Hm, Hpos.
  destruct (at_predecessorOrFirst pre post Hne) as (q & Hq & Hat). rewrite Hat.
  destruct (App.activeConversationId s) as [a|] eqn:Ea; simpl.
  - destruct (String.eqb_spec a (Conversation.id c)) as [->|Hn]; simpl.
    + repeat split; [|congruence]. intros _. now exists q.
    + repeat split; [|congruence]. intros [= E]. contradiction.
  - repeat split; [|congruence]. discriminate.
Qed.

Lemma delete_among_several_witness :
  let s' := App.handleDeleteConversation "g0" "c2" "c3" Sample.twoChats in
  App.conversations s' = [] ++ [App.newConversation "g0" "c1"] /\
  (App.activeConversationId Sample.twoChats = Some "c2" ->
   exists q, predecessorOrFirst [] [App.newConversation "g0" "c1"] = Some q /\
             App.activeConversationId s' = Some (Conversation.id q)) /\
  (App.activeConversationId Sample.twoChats <> Some "c2" ->
   App.activeConversationId s' = App.activeConversationId Sample.twoChats).
Proof.
  apply (delete_among_several "g0" "c3" Sample.twoChats []
           [App.newConversation "g0" "c1"] (App.newConversation "g0" "c2")).
  - reflexivity.
  - simpl. repeat constructor; simpl; intuition discriminate.
  - simpl. lia.
Defined.

(** ** Editing a message *)

Lemma handleEditMessage_first_occurrence (s : App.State) (c : Conversation)
    (before after : list Message) (m : Message) (newText : string) :
  App.isLoading s = false ->
  Js.truthyOpt (App.activeConversationId s) = true ->
  App.activeConversation s = Some c ->
  Conversation.messages c = before ++ m :: after ->
  before <> [] ->
  Message.role m = USER ->
  (forall x, In x before -> Message.id x <> Message.id m) ->
  exists pre post,
    App.conversations s = pre ++ c :: post /\
    forallb (fun y => negb (App.isActive (App.activeConversationId s) y)) pre = true /\
    App.handleEditMessage (Message.id m) newText s =
    (App.setConversations (pre ++ Conversation.withMessages c before :: post) s,
     Some (newText, Message.images m)).
Proof.
  intros Hl Ht Hc Hm Hb Hr Hfirst.
  destruct (find_split _ _ _ Hc) as (pre & post & Hcs & Hpre & Hact).
  exists pre, post. split; [exact Hcs|]. split; [exact Hpre|].
  unfold App.handleEditMessage. rewrite Ht, Hl. simpl.
  rewrite Hcs. rewrite (findIndex_first _ pre post c Hpre Hact).
  assert (Hn : (Js.len pre =? -1) = false) by (apply Z.eqb_neq; unfold Js.len; lia).
  rewrite Hn, at_middle, Hm.
  rewrite findIndex_first;
    [|apply forallb_forall; intros x Hx; apply negb_true_iff, String.eqb_neq;
      now apply Hfirst|apply String.eqb_refl].
  assert (Hpos : (Js.len before <=? 0) = false).
  { apply Z.leb_gt. unfold Js.len. destruct before; [contradiction|simpl length; lia]. }
  rewrite Hpos, at_middle, Hr. simpl.
  rewrite slice_prefix. unfold Js.len at 1. rewrite Nat2Z.id.
  rewrite assignAt_middle. reflexivity.
Qed.

Lemma nth_error_decompose {A} (l : list A) (i : nat) (x : A) :
  nth_error l i = Some x ->
  l = firstn i l ++ x :: skipn (S i) l /\ length (firstn i l) = i.
Proof.
  revert i. induction l as [|y l IH]; intros [|i] H; simpl in *; try discriminate.
  - injection H as ->. split; reflexivity.
  - destruct (IH i H) as [E L]. split; [now rewrite <- E|now rewrite L].
Qed.

Lemma NoDup_before {A B} (f : A -> B) (before after : list A) (x : A) :
  NoDup (map f (before ++ x :: after)) ->
  forall y, In y before -> f y <> f x.
Proof.
  rewrite map_app. simpl. intros H y Hy E. apply NoDup_remove_2 in H.
  apply H, in_or_app. left. rewrite <- E. now apply in_map.
Qed.

(** C2.  When no send is in flight, for the active conversation (whose
    identifier is a non-empty string), messages with distinct identifiers
    and a user-authored message at index [i > 0], [editMessage] on that
    message's identifier replaces the message sequence of the active
    conversation by its first [i] messages, leaves every other conversation
    in place, and leaves behind the call of [sendMessage] with the new text
    and the images of the edited message; run together, the two are that
    send on the truncated store. *)
Theorem edit_truncates_then_resends (ai : Service) (s : App.State) (c : Conversation)
    (i : nat) (m : Message) (newText uid mid : string) :
  App.isLoading s = false ->
  Js.truthyOpt (App.activeConversationId s) = true ->
  App.activeConversation s = Some c ->
  NoDup (map Message.id (Conversation.messages c)) ->
  nth_error (Conversation.messages c) i = Some m ->
  (0 < i)%nat ->
  Message.role m = USER ->
  let truncated := Conversation.withMessages c (firstn i (Conversation.messages c)) in
  exists pre post,
    App.conversations s = pre ++ c :: post /\
    forallb (fun y => negb (App.isActive (App.activeConversationId s) y)) pre = true /\
    let s' := App.setConversations (pre ++ truncated :: post) s in
    App.handleEditMessage (Message.id m) newText s =
      (s', Some (newText, Message.images m)) /\
    App.activeConversation s' = Some truncated /\
    App.editThenSend ai (Message.id m) newText uid mid s =
      App.handleSendMessageFrom ai s uid mid newText (Message.images m) s'.
Proof.
  intros Hl Ht Hc Hnd Hi Hpos Hr truncated. subst truncated.
  destruct (nth_error_decompose _ _ _ Hi) as [Hm Hlen].
  assert (Hb : firstn i (Conversation.messages c) <> []).
  { intros E. rewrite E in Hlen. simpl in Hlen. lia. }
  rewrite Hm in Hnd.
  destruct (handleEditMessage_first_occurrence s c _ _ m newText Hl Ht Hc Hm Hb Hr
              (NoDup_before _ _ _ _ Hnd)) as (pre & post & Hcs & Hpre & He).
  exists pre, post. split; [exact Hcs|]. split; [exact Hpre|].
  split; [exact He|]. split.
  - unfold App.activeConversation. simpl.
    apply find_split in Hc. destruct Hc as (pre' & post' & _ & _ & Hact).
    clear - Hpre Hact. induction pre as [|y pre IH]; simpl in *.
    + unfold App.isActive in *. simpl. now rewrite Hact.
    + apply andb_true_iff in Hpre. destruct Hpre as [Hy Hpre].
      apply negb_true_iff in Hy. rewrite Hy. now apply IH.
  - unfold App.editThenSend. now rewrite He.
Qed.

Lemma edit_truncates_then_resends_witness :
  let truncated :=
    Conversation.withMessages Sample.talk (firstn 3 (Conversation.messages Sample.talk)) in
  exists pre post,
    App.conversations Sample.twoExchanges = pre ++ Sample.talk :: post /\
    forallb (fun y => negb (App.isActive (App.activeConversationId Sample.twoExchanges) y))
      pre = true /\
    let s' := App.setConversations (pre ++ truncated :: post) Sample.twoExchanges in
    App.handleEditMessage "u2" "less" Sample.twoExchanges = (s', Some ("less", None)) /\
    App.activeConversation s' = Some truncated /\
    App.editThenSend Sample.answering "u2" "less" "u3" "m3" Sample.twoExchanges =
      App.handleSendMessageFrom Sample.answering Sample.twoExchanges "u3" "m3" "less" None s'.
Proof.
  apply (edit_truncates_then_resends Sample.answering Sample.twoExchanges Sample.talk 3
           (App.userMessage "u2" "more" None) "less" "u3" "m3").
  - reflexivity.
  - reflexivity.
  - reflexivity.
  - simpl. repeat constructor; simpl; intuition discriminate.
  - reflexivity.
  - lia.
  - reflexivity.
Defined.

(** ** Failure of a send *)

Lemma sendFinish_clears_flag (cl : App.State) (mid : string)
    (outcome : Js.Settled App.Reply) (s : App.State) :
  App.isLoading (App.sendFinish cl mid outcome s) = false.
Proof. reflexivity. Qed.

(** Whatever ran between the dispatch and its rejection, the rejection
    sets the banner and appends the same text to the conversations that
    carry the identifier captured at dispatch time. *)
Lemma sendFinish_rejected (cl : App.State) (mid : string) (err : Js.Error)
    (s : App.State) :
  let s' := App.sendFinish cl mid (Js.Rejected err) s in
  App.error s' = Some (App.errorMessage err) /\
  App.conversations s' =
    App.appendMessage (App.activeConversationId cl)
      (Message.mk mid MODEL (App.errorMessage err) None None None None)
      (App.conversations s) /\
  App.isLoading s' = false.
Proof. repeat split. Qed.

Lemma errorMessage_cases (err : Js.Error) :
  App.errorMessage err =
  ("Error: " ++ match Js.message err with
                | Some EmptyString | None => "An unexpected error occurred."
                | Some text => text
                end)%string.
Proof.
  unfold App.errorMessage, Js.orElseOpt, Js.orElse, Js.truthy.
  destruct (Js.message err) as [[|a t]|]; reflexivity.
Qed.

(** C4.  When a send passes its guard and the mode dispatch is rejected
    with an error, the banner value and the text of the model message
    appended to the active conversation (after the user message) are the
    same string: "Error: " followed by the error's message, or by a fixed
    fallback when the message is absent or empty; and the in-flight flag is
    cleared when the send ends, whether the dispatch was fulfilled or
    rejected. *)
Theorem failed_dispatch_is_reported_twice (ai : Service) (uid mid prompt : string)
    (images : option (list string)) (s : App.State) (c : Conversation)
    (err : Js.Error) :
  App.sendGuard s prompt images = false ->
  App.activeConversation s = Some c ->
  App.dispatch ai s c prompt images = Js.Rejected err ->
  let s' := App.handleSendMessage ai uid mid prompt images s in
  App.error s' = Some (App.errorMessage err) /\
  (exists c',
     App.activeConversation s' = Some c' /\
     Conversation.messages c' =
       Conversation.messages c
         ++ [App.userMessage uid prompt images;
             Message.mk mid MODEL (App.errorMessage err) None None None None]) /\
  App.errorMessage err =
    ("Error: " ++ match Js.message err with
                  | Some EmptyString | None => "An unexpected error occurred."
                  | Some text => text
                  end)%string /\
  App.isLoading s' = false /\
  (forall ai', App.sendGuard s prompt images = false ->
     App.isLoading (App.handleSendMessage ai' uid mid prompt images s) = false).
Proof.
  intros Hg Hc Hd s'. subst s'.
  unfold App.handleSendMessage, App.handleSendMessageFrom. rewrite Hg, Hc, Hd.
  split; [reflexivity|]. split.
  - eexists. split.
    + unfold App.activeConversation in *. simpl. unfold App.appendMessage.
      rewrite !find_mapActive by reflexivity. rewrite Hc. reflexivity.
    + simpl. now rewrite <- app_assoc.
  - split; [apply errorMessage_cases|]. split; [reflexivity|].
    intros ai' _. reflexivity.
Qed.

Lemma failed_dispatch_is_reported_twice_witness :
  let s' := App.handleSendMessage Sample.failing "u1" "m1" "hello" None Sample.booted in
  App.error s' = Some "Error: An unexpected error occurred." /\
  (exists c',
     App.activeConversation s' = Some c' /\
     Conversation.messages c' =
       Conversation.messages (App.newConversation "g0" "c1")
         ++ [App.userMessage "u1" "hello" None;
             Message.mk "m1" MODEL "Error: An unexpected error occurred."
               None None None None]).
Proof.
  destruct (failed_dispatch_is_reported_twice Sample.failing "u1" "m1" "hello" None
              Sample.booted (App.newConversation "g0" "c1") (Js.mkError None)
              eq_refl eq_refl eq_refl) as (He & Hm & _).
  exact (conj He Hm).
Defined.

(** ** Persistence *)

Section JsonFacts.

Lemma toList_map {A} (f : Json.value -> option A) (g : A -> Json.value) (l : list A) :
  (forall a, f (g a) = Some a) -> Json.toList f (map g l) = Some l.
Proof.
  intros H. induction l as [|a l IH]; simpl; [reflexivity|].
  now rewrite H, IH.
Qed.

Lemma toSource_ofSource (g : GroundingSource) : Json.toSource (Json.ofSource g) = Some g.
Proof. destruct g. reflexivity. Qed.

Lemma toMessage_ofMessage (m : Message) : Json.toMessage (Json.ofMessage m) = Some m.
Proof.
  destruct m as [i r t so p im f].
  unfold Json.toMessage, Json.ofMessage.
  destruct so as [so|], p as [p|], im as [im|], f as [[[|]|]|], r;
    cbn;
    rewrite ?(toList_map Json.toSource Json.ofSource _ toSource_ofSource),
            ?(toList_map Json.toString Json.JString _ (fun a => eq_refl));
    reflexivity.
Qed.

Lemma toConversation_ofConversation (c : Conversation) :
  Json.toConversation (Json.ofConversation c) = Some c.
Proof.
  destruct c as [i t ms m ctx].
  unfold Json.toConversation, Json.ofConversation.
  destruct ctx as [ctx|], m;
    cbn;
    rewrite (toList_map Json.toMessage Json.ofMessage _ toMessage_ofMessage);
    reflexivity.
Qed.

Lemma toList_ofConversations (l : list Conversation) :
  Json.toList Json.toConversation (map Json.ofConversation l) = Some l.
Proof. apply toList_map, toConversation_ofConversation. Qed.

End JsonFacts.

Lemma sessionBinder_keeps (s : App.State) :
  App.conversations (App.sessionBinder s) = App.conversations s /\
  App.activeConversationId (App.sessionBinder s) = App.activeConversationId s /\
  App.activeConversation (App.sessionBinder s) = App.activeConversation s /\
  App.isLoading (App.sessionBinder s) = App.isLoading s.
Proof.
  unfold App.sessionBinder.
  destruct (App.activeConversation s) as [c|] eqn:E; [|now rewrite E].
  destruct (Conversation.mode c); repeat split; exact E.
Qed.

(** C3 as stated fails: the store reached by two "new chat" and a
    selection of the older conversation comes back from a reload with the
    newer conversation active. *)
Lemma reload_forgets_selection :
  let s0 := App.step "g0" Sample.answering (App.SelectConversation "c1") Sample.twoChats in
  App.reachable "g0" Sample.answering s0 /\
  App.conversations s0 <> [] /\
  exists s',
    App.startup "g1" "c9" (App.saveHistory s0) = Some s' /\
    App.activeConversationId s0 = Some "c1" /\
    App.activeConversationId s' = Some "c2".
Proof.
  split; [|split; [discriminate|eexists; repeat split]].
  do 2 apply App.reachable_step.
  apply (App.reachable_startup "g0" Sample.answering "c1" Missing). reflexivity.
Qed.

(** C3, amended.  For every store state with a non-empty conversation
    list, writing the list to the persistent store and starting the
    application again yields the same conversations in the same order,
    each with the same messages in the same order, and activates the first
    conversation of the list; the active identifier is the one from before
    the reload exactly when the first conversation was the active one. *)
Theorem reload_keeps_order_and_activates_first (greetingId fresh : string)
    (s : App.State) (c : Conversation) (cs : list Conversation) :
  App.conversations s = c :: cs ->
  exists s',
    App.startup greetingId fresh (App.saveHistory s) = Some s' /\
    App.conversations s' = App.conversations s /\
    App.activeConversationId s' = Some (Conversation.id c) /\
    (App.activeConversationId s' = App.activeConversationId s <->
     App.activeConversationId s = Some (Conversation.id c)).
Proof.
  intros Hc. unfold App.startup, App.saveHistory, App.loadHistory, Json.ofConversations.
  rewrite Hc.
  change (Js.len (c :: cs) >? 0) with (Z.pos (Pos.of_succ_nat (length cs)) >? 0).
  cbn [Z.gtb Z.compare].
  change (Json.ofConversation c :: map Json.ofConversation cs)
    with (map Json.ofConversation (c :: cs)).
  cbn [map]. change (Json.ofConversation c :: map Json.ofConversation cs)
    with (map Json.ofConversation (c :: cs)).
  rewrite toList_ofConversations. cbn [option_map].
  eexists. split; [reflexivity|].
  destruct (sessionBinder_keeps
              (App.setActiveConversationId (Some (Conversation.id c))
                 (App.setConversations (c :: cs) App.initialState))) as (H1 & H2 & _).
  rewrite H1, H2. simpl. repeat split; congruence.
Qed.

Lemma reload_keeps_order_and_activates_first_witness :
  exists s',
    App.startup "g1" "c9" (App.saveHistory Sample.twoExchanges) = Some s' /\
    App.conversations s' = App.conversations Sample.twoExchanges /\
    App.activeConversationId s' = Some "c1" /\
    (App.activeConversationId s' = App.activeConversationId Sample.twoExchanges <->
     App.activeConversationId Sample.twoExchanges = Some "c1").
Proof.
  exact (reload_keeps_order_and_activates_first "g1" "c9" Sample.twoExchanges
           Sample.talk [] eq_refl).
Defined.

(** ** The session binder *)

Lemma sessionBinder_session (s : App.State) (c : Conversation) :
  App.activeConversation s = Some c ->
  App.chatSession (App.sessionBinder s) =
  match Conversation.mode c with
  | CHAT => Some (mkChat (map App.toContent (tl (Conversation.messages c))))
  | _ => None
  end.
Proof.
  intros H. unfold App.sessionBinder. rewrite H.
  destruct (Conversation.mode c); simpl; try reflexivity.
  now rewrite sliceFrom_one.
Qed.

Lemma handleSetMode_active (mode : ChatMode) (s : App.State) :
  Js.truthyOpt (App.activeConversationId s) = true ->
  App.activeConversation (App.handleSetMode mode s) =
  option_map (fun c => Conversation.withMode c mode) (App.activeConversation s).
Proof.
  intros H. unfold App.handleSetMode. rewrite H. simpl.
  unfold App.activeConversation. simpl. now apply find_mapActive.
Qed.

Lemma handleSetMode_messages (mode : ChatMode) (s : App.State) :
  map Conversation.messages (App.conversations (App.handleSetMode mode s)) =
  map Conversation.messages (App.conversations s).
Proof.
  unfold App.handleSetMode.
  destruct (negb (Js.truthyOpt (App.activeConversationId s))); [reflexivity|].
  simpl. unfold App.mapActive. rewrite map_map. apply map_ext. intros c.
  now destruct (App.isActive _ c).
Qed.

Lemma sessionBinder_idempotent (s : App.State) :
  App.sessionBinder (App.sessionBinder s) = App.sessionBinder s.
Proof.
  destruct (sessionBinder_keeps s) as (_ & _ & Ha & _).
  unfold App.sessionBinder at 1. rewrite Ha.
  unfold App.sessionBinder.
  destruct (App.activeConversation s) as [c|]; [|reflexivity].
  destruct (Conversation.mode c); reflexivity.
Qed.

(** C9 as stated fails: after a send of one image and no text, the bound
    session's entry for that message holds the inline part only, where the
    stated conversion puts a text part behind it. *)
Lemma session_history_omits_empty_text :
  let s0 :=
    App.step "g0" Sample.answering
      (App.SendMessage "u1" "m1" "" (Some ["data:image/png;base64,AAAA"])) Sample.booted in
  App.reachable "g0" Sample.answering s0 /\
  exists c chat,
    App.activeConversation s0 = Some c /\
    Conversation.mode c = CHAT /\
    App.chatSession s0 = Some chat /\
    history chat <> map statedContent (tl (Conversation.messages c)).
Proof.
  split.
  - apply App.reachable_step.
    apply (App.reachable_startup "g0" Sample.answering "c1" Missing). reflexivity.
  - eexists. eexists. split; [vm_compute; reflexivity|].
    split; [reflexivity|]. split; [vm_compute; reflexivity|].
    vm_compute. discriminate.
Qed.

(** C9, amended.  After every operation, followed by the binder of the
    render it causes, whenever a conversation is active: a session is
    bound if and only if that conversation's mode is plain; the bound
    session's history is the conversation's messages after the greeting,
    each converted to the inline parts of its images followed, when its
    text is not empty, by a text part, under the message's role; and a mode
    switch mutates no message of any conversation and, when it leaves plain
    mode for the active conversation, unbinds the session. *)
Theorem session_follows_active_conversation (greetingId : string) (ai : Service)
    (a : App.Action) (s : App.State) (c : Conversation) :
  App.activeConversation (App.step greetingId ai a s) = Some c ->
  ((exists chat, App.chatSession (App.step greetingId ai a s) = Some chat) <->
   Conversation.mode c = CHAT) /\
  (forall chat,
     App.chatSession (App.step greetingId ai a s) = Some chat ->
     history chat = map App.toContent (tl (Conversation.messages c))) /\
  (forall msg,
     App.toContent msg =
     mkContent (Message.role msg)
       (pushImages (Message.images msg) []
          ++ if Js.truthy (Message.text msg) then [TextPart (Message.text msg)] else [])) /\
  (forall mode,
     a = App.SetMode mode ->
     map Conversation.messages (App.conversations (App.step greetingId ai a s)) =
       map Conversation.messages (App.conversations s) /\
     (Js.truthyOpt (App.activeConversationId s) = true ->
      mode <> CHAT ->
      Conversation.mode c = mode /\
      App.chatSession (App.step greetingId ai a s) = None)).
Proof.
  unfold App.step. intros Hc.
  destruct (sessionBinder_keeps (App.handle greetingId ai a s)) as (Hk & _ & Ha & _).
  rewrite Ha in Hc. pose proof (sessionBinder_session _ _ Hc) as Hs.
  split; [|split; [|split]].
  - rewrite Hs. destruct (Conversation.mode c); split;
      try (intros [chat H]; discriminate H); try discriminate; eauto.
  - intros chat. rewrite Hs.
    destruct (Conversation.mode c); try discriminate. now intros [= <-].
  - intros msg. unfold App.toContent.
    destruct (Js.truthy (Message.text msg)); [reflexivity|now rewrite app_nil_r].
  - intros mode ->. simpl in *. rewrite Hk. split; [apply handleSetMode_messages|].
    intros Ht Hm. rewrite handleSetMode_active in Hc by assumption.
    destruct (App.activeConversation s) as [c0|]; [|discriminate].
    injection Hc as <-. simpl in *. split; [reflexivity|].
    rewrite Hs. destruct mode; [contradiction|reflexivity|reflexivity].
Qed.

Lemma session_follows_active_conversation_witness :
  let s' := App.step "g0" Sample.answering (App.SetMode MAPS) Sample.twoExchanges in
  ((exists chat, App.chatSession s' = Some chat) <-> MAPS = CHAT) /\
  (forall chat,
     App.chatSession s' = Some chat ->
     history chat = map App.toContent (tl (Conversation.messages Sample.talk))).
Proof.
  destruct (session_follows_active_conversation "g0" Sample.answering (App.SetMode MAPS)
              Sample.twoExchanges (Conversation.withMode Sample.talk MAPS) eq_refl)
    as (H1 & H2 & _).
  exact (conj H1 H2).
Defined.

(** ** Which conversations exist *)

Section IdFacts.

Variable activeId : option string.

Lemma find_active_iff (l : list Conversation) :
  find (App.isActive activeId) l <> None <->
  existsb (Js.strictEqOpt activeId) (map Conversation.id l) = true.
Proof.
  induction l as [|c l IH]; simpl; [split; [congruence|discriminate]|].
  unfold App.isActive at 1.
  destruct (Js.strictEqOpt activeId (Conversation.id c)); simpl; [|exact IH].
  split; [reflexivity|discriminate].
Qed.

Lemma ids_mapActive (f : Conversation -> Conversation) (l : list Conversation) :
  (forall c, Conversation.id (f c) = Conversation.id c) ->
  map Conversation.id (App.mapActive activeId f l) = map Conversation.id l.
Proof.
  intros Hf. unfold App.mapActive. rewrite map_map. apply map_ext. intros c.
  destruct (App.isActive activeId c); [apply Hf|reflexivity].
Qed.

End IdFacts.

Lemma ids_assignAt (l : list Conversation) (k : nat) (c x : Conversation) :
  nth_error l k = Some c ->
  Conversation.id x = Conversation.id c ->
  map Conversation.id (Js.assignAt l k x) = map Conversation.id l.
Proof.
  revert k. induction l as [|y l IH]; intros [|k] H E; simpl in *; try discriminate.
  - injection H as ->. now rewrite E.
  - f_equal. now apply IH.
Qed.

Lemma at_nth_error {A} (l : list A) (i : Z) (x : A) :
  Js.at_ l i = Some x -> nth_error l (Z.to_nat i) = Some x.
Proof. unfold Js.at_. destruct (i <? 0); [discriminate|auto]. Qed.

Lemma handleEditMessage_ids (messageId newText : string) (s : App.State) :
  conversationIds (fst (App.handleEditMessage messageId newText s)) = conversationIds s /\
  App.activeConversationId (fst (App.handleEditMessage messageId newText s)) =
    App.activeConversationId s.
Proof.
  unfold App.handleEditMessage.
  destruct (negb _ || _); [split; reflexivity|].
  destruct (_ =? -1); [split; reflexivity|].
  destruct (Js.at_ (App.conversations s) _) as [c|] eqn:Ec; [|split; reflexivity].
  destruct (_ <=? 0); [split; reflexivity|].
  destruct (Js.at_ (Conversation.messages c) _) as [m|]; [|split; reflexivity].
  destruct (negb _); [split; reflexivity|].
  split; [|reflexivity]. unfold conversationIds. simpl.
  eapply ids_assignAt; [apply at_nth_error; exact Ec|reflexivity].
Qed.

Lemma handleSendMessageFrom_ids (ai : Service) (cl : App.State) (uid mid prompt : string)
    (images : option (list string)) (s : App.State) :
  conversationIds (App.handleSendMessageFrom ai cl uid mid prompt images s) =
    conversationIds s /\
  App.activeConversationId (App.handleSendMessageFrom ai cl uid mid prompt images s) =
    App.activeConversationId s.
Proof.
  unfold App.handleSendMessageFrom.
  destruct (App.sendGuard cl prompt images); [split; reflexivity|].
  destruct (App.activeConversation cl) as [c|]; [|split; reflexivity].
  unfold conversationIds, App.sendFinish.
  destruct (App.dispatch ai cl c prompt images) as [[t so]|e]; simpl;
    (split; [|reflexivity]); unfold App.appendMessage;
    now rewrite !ids_mapActive by reflexivity.
Qed.

Lemma handle_ids (greetingId : string) (ai : Service) (a : App.Action) (s : App.State) :
  structural a = false ->
  conversationIds (App.handle greetingId ai a s) = conversationIds s /\
  ((forall id, a <> App.SelectConversation id) ->
   App.activeConversationId (App.handle greetingId ai a s) = App.activeConversationId s).
Proof.
  intros Hs. destruct a; try discriminate Hs; simpl.
  - split; [reflexivity|]. intros H. now contradiction (H id eq_refl).
  - split; [|reflexivity]. unfold conversationIds. simpl. rewrite map_map.
    apply map_ext. intros c. now destruct (_ =? _)%string.
  - unfold App.handleSetContext.
    destruct (negb _); (split; [|reflexivity]); [reflexivity|].
    unfold conversationIds. simpl. now apply ids_mapActive.
  - unfold App.handleSetMode.
    destruct (negb _); (split; [|reflexivity]); [reflexivity|].
    unfold conversationIds. simpl. now apply ids_mapActive.
  - destruct (handleSendMessageFrom_ids ai s uid mid prompt images s) as [H1 H2].
    split; [exact H1|intros _; exact H2].
  - unfold App.editThenSend.
    destruct (handleEditMessage_ids messageId newText s) as [H1 H2].
    destruct (App.handleEditMessage messageId newText s) as [s' [[p im]|]]; simpl in *.
    + destruct (handleSendMessageFrom_ids ai s uid mid p im s') as [H3 H4].
      split; [congruence|intros _; congruence].
    + split; [exact H1|intros _; exact H2].
  - unfold App.handleFeedback.
    destruct (negb _); (split; [|reflexivity]); [reflexivity|].
    unfold conversationIds. simpl. now apply ids_mapActive.
  - split; reflexivity.
Qed.

(** X1.  Only "new chat", "delete" and "clear all" change which
    conversations exist: every other operation, the session binder that
    follows included, keeps the identifiers of the conversations and their
    order, and only a selection moves the active pointer. *)
Theorem other_operations_keep_the_conversations (greetingId : string) (ai : Service)
    (a : App.Action) (s : App.State) :
  structural a = false ->
  conversationIds (App.step greetingId ai a s) = conversationIds s /\
  ((forall id, a <> App.SelectConversation id) ->
   App.activeConversationId (App.step greetingId ai a s) = App.activeConversationId s).
Proof.
  intros Hs. unfold App.step, conversationIds.
  destruct (sessionBinder_keeps (App.handle greetingId ai a s)) as (H1 & H2 & _).
  rewrite H1, H2. now apply handle_ids.
Qed.

Lemma other_operations_keep_the_conversations_witness :
  conversationIds
    (App.step "g0" Sample.answering (App.EditMessage "u1" "again" "u3" "m3")
       Sample.twoExchanges) = conversationIds Sample.twoExchanges /\
  ((forall id, App.EditMessage "u1" "again" "u3" "m3" <> App.SelectConversation id) ->
   App.activeConversationId
     (App.step "g0" Sample.answering (App.EditMessage "u1" "again" "u3" "m3")
        Sample.twoExchanges) = App.activeConversationId Sample.twoExchanges).
Proof.
  apply (other_operations_keep_the_conversations "g0" Sample.answering
           (App.EditMessage "u1" "again" "u3" "m3") Sample.twoExchanges).
  reflexivity.
Defined.

(** ** Invariants of the store *)

Lemma activeConversation_iff (s : App.State) :
  App.activeConversation s <> None <->
  existsb (Js.strictEqOpt (App.activeConversationId s)) (conversationIds s) = true.
Proof. apply find_active_iff. Qed.

Lemma active_of_listed (id : string) (l : list string) :
  In id l -> existsb (Js.strictEqOpt (Some id)) l = true.
Proof.
  intros H. apply existsb_exists. exists id. split; [exact H|apply String.eqb_refl].
Qed.

Lemma handleDeleteConversation_active (greetingId idToDelete fresh : string)
    (s : App.State) :
  App.activeConversation s <> None ->
  App.activeConversation
    (App.handleDeleteConversation greetingId idToDelete fresh s) <> None.
Proof.
  intros H. unfold App.handleDeleteConversation.
  destruct (_ =? -1); [exact H|].
  destruct (Js.strictEqOpt (App.activeConversationId s) idToDelete) eqn:Ea.
  - destruct (_ >? 0).
    + destruct (Js.at_ _ _) as [c|] eqn:Ec; [|exact H].
      apply activeConversation_iff. apply active_of_listed.
      unfold conversationIds. simpl. apply in_map.
      eapply nth_error_In. apply at_nth_error. exact Ec.
    + apply activeConversation_iff. simpl. now rewrite String.eqb_refl.
  - unfold App.activeConversation in *. simpl.
    destruct (find _ (App.conversations s)) as [c|] eqn:Ef; [|congruence].
    apply find_some in Ef. destruct Ef as [Hin Hact].
    intros Hn. assert (Hc : App.isActive (App.activeConversationId s) c = false).
    { apply (find_none _ _ Hn c). apply filter_In. split; [exact Hin|].
      apply negb_true_iff, String.eqb_neq. intros E.
      unfold App.isActive in Hact. rewrite E in Hact. congruence. }
    congruence.
Qed.

(** X2.  As long as the sidebar selects conversations it lists, a store
    with an active conversation keeps one through every operation: the
    active pointer never dangles, whatever is deleted. *)
Theorem active_conversation_is_kept (greetingId : string) (ai : Service)
    (a : App.Action) (s : App.State) :
  selectsListed a s ->
  App.activeConversation s <> None ->
  App.activeConversation (App.step greetingId ai a s) <> None.
Proof.
  intros Hsel Hact. unfold App.step.
  destruct (sessionBinder_keeps (App.handle greetingId ai a s)) as (_ & _ & -> & _).
  destruct (structural a) eqn:Hs.
  - destruct a; try discriminate Hs; simpl.
    + apply activeConversation_iff. simpl. now rewrite String.eqb_refl.
    + now apply handleDeleteConversation_active.
    + apply activeConversation_iff. simpl. now rewrite String.eqb_refl.
  - destruct (handle_ids greetingId ai a s Hs) as [Hi Hp].
    apply activeConversation_iff. rewrite Hi.
    destruct a; try discriminate Hs;
      try (rewrite Hp by discriminate; now apply activeConversation_iff).
    simpl in *. now apply active_of_listed.
Qed.

Lemma active_conversation_is_kept_witness :
  App.activeConversation
    (App.step "g0" Sample.answering (App.DeleteConversation "c2" "c3") Sample.twoChats)
  <> None.
Proof.
  apply (active_conversation_is_kept "g0" Sample.answering
           (App.DeleteConversation "c2" "c3") Sample.twoChats).
  - exact I.
  - discriminate.
Defined.

Lemma ids_filter (id : string) (l : list Conversation) :
  map Conversation.id (filter (fun c => negb (Conversation.id c =? id)%string) l) =
  filter (fun i => negb (i =? id)%string) (map Conversation.id l).
Proof.
  induction l as [|c l IH]; simpl; [reflexivity|].
  destruct (negb _); simpl; now rewrite IH.
Qed.

(** X3.  Conversation identifiers stay distinct: from a store whose
    conversations carry distinct identifiers, every operation that draws an
    identifier not in use leads to such a store again. *)
Theorem conversation_ids_stay_distinct (greetingId : string) (ai : Service)
    (a : App.Action) (s : App.State) :
  NoDup (conversationIds s) ->
  drawsFresh a s ->
  NoDup (conversationIds (App.step greetingId ai a s)).
Proof.
  intros Hnd Hf. unfold App.step, conversationIds.
  destruct (sessionBinder_keeps (App.handle greetingId ai a s)) as (-> & _).
  destruct (structural a) eqn:Hs.
  - destruct a; try discriminate Hs; simpl in *.
    + now constructor.
    + unfold App.handleDeleteConversation.
      assert (Hfil : NoDup (map Conversation.id
                              (filter (fun c => negb (Conversation.id c =? id)%string)
                                 (App.conversations s))))
        by (rewrite ids_filter; now apply NoDup_filter).
      destruct (_ =? -1); [exact Hnd|].
      destruct (Js.strictEqOpt _ _); [|exact Hfil].
      destruct (_ >? 0); [|simpl; now constructor].
      destruct (Js.at_ _ _); [exact Hfil|exact Hnd].
    + repeat constructor. intros [].
  - destruct (handle_ids greetingId ai a s Hs) as [Hi _].
    unfold conversationIds in Hi. now rewrite Hi.
Qed.

Lemma conversation_ids_stay_distinct_witness :
  NoDup (conversationIds
           (App.step "g0" Sample.answering (App.NewChat "c3") Sample.twoChats)).
Proof.
  apply (conversation_ids_stay_distinct "g0" Sample.answering (App.NewChat "c3")
           Sample.twoChats).
  - simpl. repeat constructor; simpl; intuition discriminate.
  - simpl. intuition discriminate.
Defined.

(** ** The shape of a send *)

Lemma mapActive_compose (activeId : option string) (f g : Conversation -> Conversation)
    (l : list Conversation) :
  (forall c, Conversation.id (f c) = Conversation.id c) ->
  App.mapActive activeId g (App.mapActive activeId f l) =
  App.mapActive activeId (fun c => g (f c)) l.
Proof.
  intros Hf. unfold App.mapActive. rewrite map_map. apply map_ext. intros c.
  destruct (App.isActive activeId c) eqn:E; [|now rewrite E].
  unfold App.isActive in *. now rewrite Hf, E.
Qed.

Lemma mapActive_same (activeId : option string) (l : list Conversation) :
  App.mapActive activeId (fun c => c) l = l.
Proof.
  unfold App.mapActive. rewrite <- (map_id l) at 2. apply map_ext. intros c.
  now destruct (App.isActive activeId c).
Qed.


Lemma handleSendMessageFrom_shape (ai : Service) (cl : App.State) (uid mid prompt : string)
    (images : option (list string)) (s : App.State) :
  exists f,
    extendsBy 2 f /\
    App.conversations (App.handleSendMessageFrom ai cl uid mid prompt images s) =
    App.mapActive (App.activeConversationId cl) f (App.conversations s).
Proof.
  unfold App.handleSendMessageFrom.
  assert (Hid : exists f, extendsBy 2 f /\
            App.conversations s =
            App.mapActive (App.activeConversationId cl) f (App.conversations s)).
  { exists (fun c => c). split; [|now rewrite mapActive_same].
    intros c. repeat split. exists []. split; [now rewrite app_nil_r|simpl; lia]. }
  destruct (App.sendGuard cl prompt images); [exact Hid|].
  destruct (App.activeConversation cl) as [c0|]; [clear Hid|exact Hid].
  unfold App.sendFinish, App.sendStart, App.appendMessage.
  destruct (App.dispatch ai cl c0 prompt images) as [[t so]|e]; simpl;
    rewrite mapActive_compose by reflexivity;
    (eexists; split; [|reflexivity]);
    intros c; repeat split; simpl;
    (eexists; split; [now rewrite <- app_assoc|simpl; lia]).
Qed.



(** ** The greeting *)

Lemma opensWithGreeting_app (c c' : Conversation) (added : list Message) :
  Conversation.messages c' = Conversation.messages c ++ added ->
  opensWithGreeting c -> opensWithGreeting c'.
Proof.
  intros E (g & rest & Hm & Hr & Ht). exists g, (rest ++ added).
  rewrite E, Hm. repeat split; assumption.
Qed.

Lemma opensWithGreeting_messages (c c' : Conversation) :
  Conversation.messages c' = Conversation.messages c ->
  opensWithGreeting c -> opensWithGreeting c'.
Proof.
  intros E. apply (opensWithGreeting_app c c' []). now rewrite app_nil_r.
Qed.

Lemma Forall_mapActive (P : Conversation -> Prop) (activeId : option string)
    (f : Conversation -> Conversation) (l : list Conversation) :
  (forall c, P c -> P (f c)) ->
  Forall P l -> Forall P (App.mapActive activeId f l).
Proof.
  intros Hf H. unfold App.mapActive. apply Forall_map.
  eapply Forall_impl; [|exact H]. intros c Hc.
  destruct (App.isActive activeId c); auto.
Qed.

Lemma Forall_assignAt {A} (P : A -> Prop) (l : list A) (k : nat) (x : A) :
  P x -> Forall P l -> Forall P (Js.assignAt l k x).
Proof.
  intros Hx H. revert k. induction H as [|y l Hy H IH]; intros k; simpl; [constructor|].
  destruct k; constructor; auto.
Qed.

Lemma slice_keeps_head {A} (x : A) (l : list A) (i : Z) :
  0 < i -> exists r, Js.slice (x :: l) 0 i = x :: r.
Proof.
  intros Hi. unfold Js.slice, Js.relIndex.
  destruct (Z.ltb_spec i 0); [lia|]. change (0 <? 0) with false. cbv iota.
  assert (Hl : 1 <= Js.len (x :: l)).
  { unfold Js.len. change (length (x :: l)) with (S (length l)). lia. }
  rewrite (Z.min_l 0) by lia. change (Z.to_nat 0) with 0%nat.
  destruct (Z.to_nat (Z.min i (Js.len (x :: l)) - 0)) as [|n] eqn:E; [lia|].
  eexists. reflexivity.
Qed.

Lemma toggleFeedback_keeps (mid : string) (t : FeedbackTag) (m : Message) :
  Message.role (App.toggleFeedback mid t m) = Message.role m /\
  Message.text (App.toggleFeedback mid t m) = Message.text m.
Proof. unfold App.toggleFeedback. destruct (_ =? _)%string; split; reflexivity. Qed.

Lemma handleSendMessageFrom_greeting (ai : Service) (cl : App.State)
    (uid mid prompt : string) (images : option (list string)) (s : App.State) :
  Forall opensWithGreeting (App.conversations s) ->
  Forall opensWithGreeting
    (App.conversations (App.handleSendMessageFrom ai cl uid mid prompt images s)).
Proof.
  intros H.
  destruct (handleSendMessageFrom_shape ai cl uid mid prompt images s) as (f & Hf & ->).
  apply Forall_mapActive; [|exact H]. intros c Hc.
  destruct (Hf c) as (_ & _ & _ & added & E & _).
  exact (opensWithGreeting_app _ _ _ E Hc).
Qed.

Lemma handleEditMessage_greeting (messageId newText : string) (s : App.State) :
  Forall opensWithGreeting (App.conversations s) ->
  Forall opensWithGreeting
    (App.conversations (fst (App.handleEditMessage messageId newText s))).
Proof.
  intros H. unfold App.handleEditMessage.
  destruct (negb _ || _); [exact H|].
  destruct (_ =? -1); [exact H|].
  destruct (Js.at_ (App.conversations s) _) as [c|] eqn:Ec; [|exact H].
  destruct (Z.leb_spec (Js.findIndex (fun m => (Message.id m =? messageId)%string)
                          (Conversation.messages c)) 0) as [|Hpos]; [exact H|].
  destruct (Js.at_ (Conversation.messages c) _) as [m|]; [|exact H].
  destruct (negb _); [exact H|]. simpl.
  apply Forall_assignAt; [|exact H].
  assert (Hc : opensWithGreeting c).
  { eapply Forall_forall; [exact H|]. eapply nth_error_In, at_nth_error, Ec. }
  destruct Hc as (g & rest & Hm & Hr & Ht).
  unfold opensWithGreeting. simpl. rewrite Hm in Hpos |- *.
  destruct (slice_keeps_head g rest _ Hpos) as [r Hs].
  exists g, r. rewrite Hs. repeat split; assumption.
Qed.

(** X5.  The greeting is never lost: if every conversation opens with the
    greeting (a model message with the fixed text), so does every
    conversation after any operation; edits truncate behind it, sends
    append after it, feedback leaves its role and text alone, and new
    conversations start with it. *)
Theorem greeting_stays_first (greetingId : string) (ai : Service) (a : App.Action)
    (s : App.State) :
  Forall opensWithGreeting (App.conversations s) ->
  Forall opensWithGreeting (App.conversations (App.step greetingId ai a s)).
Proof.
  intros H. unfold App.step.
  destruct (sessionBinder_keeps (App.handle greetingId ai a s)) as (-> & _).
  assert (Hnew : forall fresh, opensWithGreeting (App.newConversation greetingId fresh)).
  { intros fresh. exists (App.initialBotMessage greetingId), []. repeat split. }
  destruct a; simpl.
  - constructor; [apply Hnew|exact H].
  - exact H.
  - apply Forall_map. eapply Forall_impl; [|exact H]. intros c Hc.
    destruct (_ =? _)%string; [|exact Hc].
    now apply (opensWithGreeting_messages c).
  - unfold App.handleDeleteConversation.
    assert (Hfil : Forall opensWithGreeting
                     (filter (fun c => negb (Conversation.id c =? id)%string)
                        (App.conversations s))).
    { apply Forall_forall. intros c Hc. apply filter_In in Hc.
      eapply Forall_forall; [exact H|apply Hc]. }
    destruct (_ =? -1); [exact H|].
    destruct (Js.strictEqOpt _ _); [|exact Hfil].
    destruct (_ >? 0); [|constructor; [apply Hnew|exact H]].
    destruct (Js.at_ _ _); [exact Hfil|exact H].
  - constructor; [apply Hnew|constructor].
  - unfold App.handleSetContext. destruct (negb _); [exact H|]. simpl.
    apply Forall_mapActive; [|exact H]. intros c.
    now apply (opensWithGreeting_messages c).
  - unfold App.handleSetMode. destruct (negb _); [exact H|]. simpl.
    apply Forall_mapActive; [|exact H]. intros c.
    now apply (opensWithGreeting_messages c).
  - now apply handleSendMessageFrom_greeting.
  - unfold App.editThenSend.
    pose proof (handleEditMessage_greeting messageId newText s H) as He.
    destruct (App.handleEditMessage messageId newText s) as [s' [[p im]|]]; simpl in He.
    + now apply handleSendMessageFrom_greeting.
    + exact He.
  - unfold App.handleFeedback. destruct (negb _); [exact H|]. simpl.
    apply Forall_mapActive; [|exact H]. intros c (g & rest & Hm & Hr & Ht).
    exists (App.toggleFeedback messageId feedback g),
           (map (App.toggleFeedback messageId feedback) rest).
    simpl. rewrite Hm. simpl.
    destruct (toggleFeedback_keeps messageId feedback g) as [-> ->].
    repeat split; assumption.
  - exact H.
Qed.

Lemma greeting_stays_first_witness :
  Forall opensWithGreeting
    (App.conversations
       (App.step "g0" Sample.answering (App.EditMessage "u1" "again" "u3" "m3")
          Sample.twoExchanges)).
Proof.
  apply (greeting_stays_first "g0" Sample.answering
           (App.EditMessage "u1" "again" "u3" "m3") Sample.twoExchanges).
  repeat constructor.
  exists (App.initialBotMessage "g0"). eexists. repeat split.
Defined.

(** ** Outcome of a send *)

Lemma find_active_middle {A} (p : A -> bool) (pre post : list A) (x : A) :
  forallb (fun y => negb (p y)) pre = true ->
  p x = true ->
  find p (pre ++ x :: post) = Some x.
Proof.
  intros Hpre Hx. induction pre as [|y pre IH]; simpl in *; [now rewrite Hx|].
  apply andb_true_iff in Hpre. destruct Hpre as [Hy Hpre].
  apply negb_true_iff in Hy. rewrite Hy. now apply IH.
Qed.

(** A send whose closure state [cl] has the active conversation [c0],
    meeting a store [s] in which [c] is the first conversation under the
    same identifier. *)
Lemma handleSendMessageFrom_active (ai : Service) (cl s : App.State)
    (uid mid prompt : string) (images : option (list string)) (c0 c : Conversation) :
  App.sendGuard cl prompt images = false ->
  App.activeConversation cl = Some c0 ->
  App.activeConversationId s = App.activeConversationId cl ->
  App.activeConversation s = Some c ->
  let s' := App.handleSendMessageFrom ai cl uid mid prompt images s in
  App.isLoading s' = false /\
  App.error s' =
    match App.dispatch ai cl c0 prompt images with
    | Js.Fulfilled _ => None
    | Js.Rejected err => Some (App.errorMessage err)
    end /\
  exists c',
    App.activeConversation s' = Some c' /\
    Conversation.messages c' =
      Conversation.messages c
        ++ [App.userMessage uid prompt images;
            replyMessage mid (App.dispatch ai cl c0 prompt images)] /\
    Conversation.title c' =
      if Js.len (Conversation.messages c) =? 1
      then (Js.substring0 40 (Js.orElse prompt "Image Upload") ++ "...")%string
      else Conversation.title c.
Proof.
  intros Hg Hc0 Ha Hc s'. subst s'. unfold App.handleSendMessageFrom.
  rewrite Hg, Hc0. unfold App.activeConversation in Hc. rewrite Ha in Hc.
  unfold App.sendFinish.
  destruct (App.dispatch ai cl c0 prompt images) as [[t so]|e]; simpl;
    (split; [reflexivity|]); (split; [reflexivity|]);
    unfold App.activeConversation, App.appendMessage; simpl; rewrite Ha;
    rewrite !find_mapActive by reflexivity; rewrite Hc; simpl;
    (eexists; split; [reflexivity|]); simpl;
    (split; [now rewrite <- app_assoc|reflexivity]).
Qed.

(** X6.  When a send passes its guard and the dispatch is fulfilled, the
    active conversation gains exactly the user message followed by a model
    message with the returned text and sources, the banner is cleared and
    the in-flight flag is down. *)
Theorem fulfilled_send_appends_the_reply (ai : Service) (uid mid prompt : string)
    (images : option (list string)) (s : App.State) (c : Conversation)
    (responseText : string) (responseSources : option (list GroundingSource)) :
  App.sendGuard s prompt images = false ->
  App.activeConversation s = Some c ->
  App.dispatch ai s c prompt images = Js.Fulfilled (responseText, responseSources) ->
  let s' := App.handleSendMessage ai uid mid prompt images s in
  App.error s' = None /\
  App.isLoading s' = false /\
  exists c',
    App.activeConversation s' = Some c' /\
    Conversation.messages c' =
      Conversation.messages c
        ++ [App.userMessage uid prompt images;
            Message.mk mid MODEL responseText responseSources None None None].
Proof.
  intros Hg Hc Hd s'. subst s'. unfold App.handleSendMessage.
  destruct (handleSendMessageFrom_active ai s s uid mid prompt images c c Hg Hc eq_refl Hc)
    as (Hl & He & c' & Hc' & Hm & _).
  rewrite Hd in He, Hm. repeat split; try assumption.
  exists c'. split; assumption.
Qed.

Lemma fulfilled_send_appends_the_reply_witness :
  let s' := App.handleSendMessage Sample.answering "u1" "m1" "hello" None Sample.booted in
  App.error s' = None /\
  App.isLoading s' = false /\
  exists c',
    App.activeConversation s' = Some c' /\
    Conversation.messages c' =
      Conversation.messages (App.newConversation "g0" "c1")
        ++ [App.userMessage "u1" "hello" None;
            Message.mk "m1" MODEL "fine" None None None None].
Proof.
  exact (fulfilled_send_appends_the_reply Sample.answering "u1" "m1" "hello" None
           Sample.booted (App.newConversation "g0" "c1") "fine" None
           eq_refl eq_refl eq_refl).
Defined.





(** X8.  In grounded mode without a device location, and in plain mode
    without a bound session, the dispatch of a send that passes its guard
    fails on the spot: whatever the remote service would answer, the banner
    and the one model message appended after the user message carry the
    fixed text of the local error. *)
Theorem send_without_location_or_session_fails_locally (uid mid prompt : string)
    (images : option (list string)) (s : App.State) (c : Conversation) :
  App.sendGuard s prompt images = false ->
  App.activeConversation s = Some c ->
  (Conversation.mode c = MAPS /\ App.location s = None) \/
  (Conversation.mode c = CHAT /\ App.chatSession s = None) ->
  let text :=
    match Conversation.mode c with
    | MAPS => "Error: Location not available. Please allow location access."
    | _ => "Error: Chat session not initialized."
    end in
  forall ai : Service,
    let s' := App.handleSendMessage ai uid mid prompt images s in
    App.error s' = Some text /\
    App.isLoading s' = false /\
    exists c',
      App.activeConversation s' = Some c' /\
      Conversation.messages c' =
        Conversation.messages c
          ++ [App.userMessage uid prompt images;
              Message.mk mid MODEL text None None None None].
Proof.
  intros Hg Hc Hcase text ai s'. subst s' text. unfold App.handleSendMessage.
  destruct (handleSendMessageFrom_active ai s s uid mid prompt images c c Hg Hc eq_refl Hc)
    as (Hl & He & c' & Hc' & Hm & _).
  assert (Hd : App.dispatch ai s c prompt images =
               Js.Rejected (Js.mkError (Some
                 match Conversation.mode c with
                 | MAPS => "Location not available. Please allow location access."
                 | _ => "Chat session not initialized."
                 end))).
  { unfold App.dispatch. destruct Hcase as [[-> ->]|[-> ->]]; reflexivity. }
  rewrite Hd in He, Hm.
  destruct Hcase as [[Hmode _]|[Hmode _]]; rewrite Hmode in *;
    (split; [exact He|]); (split; [exact Hl|]); exists c'; split; assumption.
Qed.

Lemma send_without_location_or_session_fails_locally_witness :
  let s0 := App.step "g0" Sample.answering (App.SetMode MAPS) Sample.booted in
  App.error (App.handleSendMessage Sample.answering "u1" "m1" "cafes nearby" None s0) =
  Some "Error: Location not available. Please allow location access.".
Proof.
  exact (proj1 (send_without_location_or_session_fails_locally "u1" "m1" "cafes nearby"
                  None (App.step "g0" Sample.answering (App.SetMode MAPS) Sample.booted)
                  (Conversation.withMode (App.newConversation "g0" "c1") MAPS)
                  eq_refl eq_refl (or_introl (conj eq_refl eq_refl)) Sample.answering)).
Defined.

(** ** An edit and its re-send *)

(** X9.  An accepted edit followed by its timer rewrites history forward:
    with no send in flight, distinct message identifiers and a user
    message at index [i > 0] of the active conversation, and a new text or
    original images that are not both empty, the conversation ends as its
    first [i] messages, then a user message with the new text and the
    original images, then the reply; the reply is the outcome of a dispatch
    made from the state and the conversation of before the truncation. *)
Theorem edit_rewrites_history_forward (ai : Service) (s : App.State) (c : Conversation)
    (i : nat) (m : Message) (newText uid mid : string) :
  App.isLoading s = false ->
  Js.truthyOpt (App.activeConversationId s) = true ->
  App.activeConversation s = Some c ->
  NoDup (map Message.id (Conversation.messages c)) ->
  nth_error (Conversation.messages c) i = Some m ->
  (0 < i)%nat ->
  Message.role m = USER ->
  newText <> EmptyString \/ (exists x l, Message.images m = Some (x :: l)) ->
  let s' := App.editThenSend ai (Message.id m) newText uid mid s in
  App.isLoading s' = false /\
  exists c',
    App.activeConversation s' = Some c' /\
    Conversation.messages c' =
      firstn i (Conversation.messages c)
        ++ [App.userMessage uid newText (Message.images m);
            replyMessage mid (App.dispatch ai s c newText (Message.images m))].
Proof.
  intros Hl Ht Hc Hnd Hi Hpos Hr Hne s'. subst s'.
  destruct (nth_error_decompose _ _ _ Hi) as [Hm Hlen].
  assert (Hb : firstn i (Conversation.messages c) <> []).
  { intros E. rewrite E in Hlen. simpl in Hlen. lia. }
  rewrite Hm in Hnd.
  destruct (handleEditMessage_first_occurrence s c _ _ m newText Hl Ht Hc Hm Hb Hr
              (NoDup_before _ _ _ _ Hnd)) as (pre & post & Hcs & Hpre & He).
  unfold App.editThenSend. rewrite He.
  assert (Hg : App.sendGuard s newText (Message.images m) = false).
  { unfold App.sendGuard. rewrite Hl, Ht, Hc. simpl. rewrite !orb_false_r.
    destruct Hne as [Hn|(x & l & ->)].
    - apply truthy_true in Hn. now rewrite Hn.
    - apply andb_false_r. }
  assert (Hact : App.isActive (App.activeConversationId s) c = true).
  { apply (find_some _ _ Hc). }
  edestruct (handleSendMessageFrom_active ai s
               (App.setConversations
                  (pre ++ Conversation.withMessages c (firstn i (Conversation.messages c))
                     :: post) s)
               uid mid newText (Message.images m) c
               (Conversation.withMessages c (firstn i (Conversation.messages c)))
               Hg Hc eq_refl) as (Hl' & _ & c' & Hc' & Hm' & _).
  { unfold App.activeConversation. simpl. now apply find_active_middle. }
  split; [exact Hl'|]. exists c'. split; assumption.
Qed.

Lemma edit_rewrites_history_forward_witness :
  let s' := App.editThenSend Sample.answering "u2" "less" "u3" "m3" Sample.twoExchanges in
  App.isLoading s' = false /\
  exists c',
    App.activeConversation s' = Some c' /\
    Conversation.messages c' =
      firstn 3 (Conversation.messages Sample.talk)
        ++ [App.userMessage "u3" "less" None;
            Message.mk "m3" MODEL "fine" None None None None].
Proof.
  apply (edit_rewrites_history_forward Sample.answering Sample.twoExchanges Sample.talk 3
           (App.userMessage "u2" "more" None) "less" "u3" "m3").
  - reflexivity.
  - reflexivity.
  - reflexivity.
  - simpl. repeat constructor; simpl; intuition discriminate.
  - reflexivity.
  - lia.
  - reflexivity.
  - left. discriminate.
Defined.




(** ** Deleting and renaming *)

Lemma findIndex_none {A} (p : A -> bool) (l : list A) :
  (forall x, In x l -> p x = false) -> Js.findIndex p l = -1.
Proof.
  induction l as [|x l IH]; intros H; simpl; [reflexivity|].
  rewrite (H x) by now left. rewrite IH by (intros y Hy; apply H; now right).
  reflexivity.
Qed.

(** X11.  Deleting an identifier that no conversation carries changes
    nothing: no conversation is removed, the active pointer stays, and no
    new conversation is started. *)
Theorem delete_of_unknown_id_is_noop (greetingId idToDelete fresh : string)
    (s : App.State) :
  ~ In idToDelete (conversationIds s) ->
  App.handleDeleteConversation greetingId idToDelete fresh s = s.
Proof.
  intros H. unfold App.handleDeleteConversation.
  rewrite findIndex_none; [reflexivity|].
  intros c Hc. apply String.eqb_neq. intros E. apply H. rewrite <- E.
  unfold conversationIds. now apply in_map.
Qed.

Lemma delete_of_unknown_id_is_noop_witness :
  App.handleDeleteConversation "g0" "zz" "c3" Sample.twoChats = Sample.twoChats.
Proof.
  apply (delete_of_unknown_id_is_noop "g0" "zz" "c3" Sample.twoChats).
  simpl. intuition discriminate.
Defined.

(** X12.  The title race: the callback of the title request rewrites the
    title of the conversation its send started in, whatever happened to
    that title meanwhile.  A manual rename made before the generated title
    arrives is overwritten; the same rename made after it stands. *)
Theorem late_title_overwrites_a_rename (cl s : App.State) (aid generated manual : string)
    (k : nat) (c : Conversation) :
  App.activeConversationId cl = Some aid ->
  nth_error (App.conversations s) k = Some c ->
  Conversation.id c = aid ->
  nth_error
    (App.conversations
       (App.titleResolved cl generated (App.handleRenameConversation aid manual s))) k
    = Some (Conversation.withTitle c generated) /\
  nth_error
    (App.conversations
       (App.handleRenameConversation aid manual (App.titleResolved cl generated s))) k
    = Some (Conversation.withTitle c manual).
Proof.
  intros Ha Hk Hid. unfold App.titleResolved, App.handleRenameConversation. simpl.
  rewrite Ha. unfold App.mapActive. rewrite !map_map, !nth_error_map, Hk. simpl.
  unfold App.isActive. simpl. rewrite Hid, !String.eqb_refl. simpl.
  rewrite Hid, !String.eqb_refl. split; reflexivity.
Qed.

Lemma late_title_overwrites_a_rename_witness :
  nth_error
    (App.conversations
       (App.titleResolved Sample.booted "Greeting"
          (App.handleRenameConversation "c1" "My notes" Sample.oneExchange))) 0
  = Some (Conversation.withTitle
            (Conversation.mk "c1" "hello..."
               [App.initialBotMessage "g0"; App.userMessage "u1" "hello" None;
                Message.mk "m1" MODEL "fine" None None None None] CHAT (Some ""))
            "Greeting").
Proof.
  exact (proj1 (late_title_overwrites_a_rename Sample.booted Sample.oneExchange "c1"
                  "Greeting" "My notes" 0
                  (Conversation.mk "c1" "hello..."
                     [App.initialBotMessage "g0"; App.userMessage "u1" "hello" None;
                      Message.mk "m1" MODEL "fine" None None None None] CHAT (Some ""))
                  eq_refl eq_refl eq_refl)).
Defined.

(** ** Start-up *)

(** X13.  Whatever the persistent store holds, a start that yields a
    state yields one with a first conversation, active and found under the
    active pointer, and no send in flight; unless the key held a non-empty
    array, that conversation is a fresh one and the only one: a missing
    key, unparsable text, a value that is no array and the empty array all
    start a new chat. *)
Theorem startup_activates_the_first_conversation (greetingId fresh : string)
    (stored : StoredHistory) (s : App.State) :
  App.startup greetingId fresh stored = Some s ->
  exists c rest,
    App.conversations s = c :: rest /\
    App.activeConversationId s = Some (Conversation.id c) /\
    App.activeConversation s = Some c /\
    App.isLoading s = false /\
    (holdsList stored = false -> c = App.newConversation greetingId fresh /\ rest = []).
Proof.
  unfold App.startup. intros H.
  destruct (App.loadHistory greetingId fresh stored App.initialState) as [s0|] eqn:E;
    [|discriminate]. injection H as <-.
  destruct (sessionBinder_keeps s0) as (-> & -> & -> & ->).
  assert (Hnew : forall s1, s1 = App.handleNewChat greetingId fresh App.initialState ->
            exists c rest,
              App.conversations s1 = c :: rest /\
              App.activeConversationId s1 = Some (Conversation.id c) /\
              App.activeConversation s1 = Some c /\
              App.isLoading s1 = false /\
              (c = App.newConversation greetingId fresh /\ rest = [])).
  { intros s1 ->. eexists. eexists. repeat split.
    unfold App.activeConversation. simpl. now rewrite String.eqb_refl. }
  assert (Hnew' : Some (App.handleNewChat greetingId fresh App.initialState) = Some s0 ->
            exists c rest,
              App.conversations s0 = c :: rest /\
              App.activeConversationId s0 = Some (Conversation.id c) /\
              App.activeConversation s0 = Some c /\
              App.isLoading s0 = false /\
              (holdsList stored = false ->
               c = App.newConversation greetingId fresh /\ rest = [])).
  { intros [= <-]. destruct (Hnew _ eq_refl) as (c & rest & H1 & H2 & H3 & H4 & H5).
    exists c, rest. repeat split; try assumption; apply H5. }
  unfold App.loadHistory in E.
  destruct stored as [| |v]; try (now apply Hnew').
  destruct v as [|b|t|l|o]; try (now apply Hnew').
  destruct l as [|x r]; [now apply Hnew'|].
  destruct (Json.toList Json.toConversation (x :: r)) as [[|c cs]|]; try discriminate.
  injection E as <-. exists c, cs. repeat split; try discriminate.
  unfold App.activeConversation. simpl. now rewrite String.eqb_refl.
Qed.

Lemma startup_activates_the_first_conversation_witness :
  exists c rest,
    App.conversations Sample.booted = c :: rest /\
    App.activeConversationId Sample.booted = Some (Conversation.id c) /\
    App.activeConversation Sample.booted = Some c /\
    App.isLoading Sample.booted = false /\
    (holdsList Unparsable = false -> c = App.newConversation "g0" "c1" /\ rest = []).
Proof.
  exact (startup_activates_the_first_conversation "g0" "c1" Unparsable Sample.booted
           eq_refl).
Defined.

(** ** [getMapsResponse] and [generateTitle] *)



Section TrimFacts.








End TrimFacts.


(** ** Speech playback *)






(** ** The speech voice *)

(** X18.  The voice read at start-up is validated: whatever the store
    holds under the key, the voice in use after mounting is one of the
    five listed names; it is the stored one exactly when that one is
    listed, and "Kore" otherwise; and that is what the key holds once the
    effects have run. *)
Theorem stored_voice_is_validated (storedVoice : option string) :
  let voice := Voice.mountVoice storedVoice in
  In voice (map fst Voice.ttsVoices) /\
  (forall v, storedVoice = Some v -> In v (map fst Voice.ttsVoices) -> voice = v) /\
  ((forall v, storedVoice = Some v -> ~ In v (map fst Voice.ttsVoices)) -> voice = "Kore") /\
  Voice.storedAfter voice = Some voice /\
  Voice.labelOf voice <> None.
Proof.
  intros voice. subst voice. unfold Voice.mountVoice.
  assert (Hk : In "Kore" (map fst Voice.ttsVoices)) by (left; reflexivity).
  assert (Hex : forall v, existsb (fun x => (fst x =? v)%string) Voice.ttsVoices = true <->
                          In v (map fst Voice.ttsVoices)).
  { intros v. rewrite existsb_exists. split.
    - intros (x & Hx & E). apply String.eqb_eq in E. subst v. now apply in_map.
    - intros H. apply in_map_iff in H. destruct H as (x & <- & Hx).
      exists x. split; [exact Hx|apply String.eqb_refl]. }
  assert (Hlabel : forall v, In v (map fst Voice.ttsVoices) -> Voice.labelOf v <> None).
  { intros v H. simpl in H.
    repeat (destruct H as [<-|H]; [discriminate|]). contradiction. }
  assert (Htr : forall v, In v (map fst Voice.ttsVoices) -> Js.truthy v = true).
  { intros v H. simpl in H.
    repeat (destruct H as [<-|H]; [reflexivity|]). contradiction. }
  destruct storedVoice as [v|].
  - destruct (Js.truthy v && existsb _ Voice.ttsVoices) eqn:E.
    + apply andb_true_iff in E. destruct E as [_ E]. apply Hex in E.
      split; [exact E|]. split; [now intros v' [= <-] _|].
      split; [intros H; exfalso; exact (H v eq_refl E)|].
      split; [reflexivity|now apply Hlabel].
    + split; [exact Hk|]. split.
      * intros v' [= <-] Hin. exfalso.
        rewrite (Htr v Hin), (proj2 (Hex v) Hin) in E. discriminate.
      * split; [reflexivity|]. split; [reflexivity|now apply Hlabel].
  - split; [exact Hk|]. split; [discriminate|].
    split; [reflexivity|]. split; [reflexivity|now apply Hlabel].
Qed.

(** ** The chat input *)

Section ChatInputFacts.

Lemma rejectedNow_none (f : ChatInput.File) :
  ChatInput.rejectedNow f = None ->
  In (ChatInput.type f) ChatInput.allowedTypes /\ ChatInput.size f <= 5242880.
Proof.
  unfold ChatInput.rejectedNow.
  destruct (existsb _ ChatInput.allowedTypes) eqn:Et; cbn [negb]; [|discriminate].
  destruct (Z.gtb_spec (ChatInput.size f) (ChatInput.maxSizeInMB * 1024 * 1024)) as [|Hs];
    [discriminate|].
  intros _. split.
  - apply existsb_exists in Et. destruct Et as (t & Ht & E).
    apply String.eqb_eq in E. now subst.
  - exact Hs.
Qed.

Lemma firstRejectedNow_none (l : list ChatInput.File) :
  ChatInput.firstRejectedNow l = None ->
  Forall (fun f => ChatInput.rejectedNow f = None) l.
Proof.
  induction l as [|f l IH]; simpl; [constructor|].
  destruct (ChatInput.rejectedNow f) eqn:E; [discriminate|].
  intros H. constructor; auto.
Qed.

Lemma earliestReadError_none (l : list ChatInput.File) :
  ChatInput.earliestReadError l = None ->
  Forall (fun f => ChatInput.readResult f <> None) l.
Proof.
  induction l as [|f l IH]; simpl; [constructor|].
  destruct (ChatInput.readResult f) eqn:E.
  - intros H. constructor; [rewrite E; discriminate|auto].
  - destruct (ChatInput.earliestReadError l) as [[t m]|]; [|discriminate].
    destruct (t <? ChatInput.readAt f)%nat; discriminate.
Qed.

Lemma promiseAll_fulfilled (l : list ChatInput.File) (news : list string) :
  ChatInput.promiseAll l = Js.Fulfilled news ->
  Forall acceptable l /\ map Some news = map ChatInput.readResult l.
Proof.
  unfold ChatInput.promiseAll.
  destruct (ChatInput.firstRejectedNow l) eqn:E1; [discriminate|].
  destruct (ChatInput.earliestReadError l) as [[t m]|] eqn:E2; [discriminate|].
  intros [= <-].
  apply firstRejectedNow_none in E1. apply earliestReadError_none in E2.
  split.
  - apply Forall_forall. intros f Hf.
    destruct (rejectedNow_none f (proj1 (Forall_forall _ _) E1 f Hf)) as [H1 H2].
    repeat split; try assumption. exact (proj1 (Forall_forall _ _) E2 f Hf).
  - rewrite map_map. apply map_ext_in. intros f Hf.
    pose proof (proj1 (Forall_forall _ _) E2 f Hf) as H. simpl in H.
    destruct (ChatInput.readResult f); [reflexivity|congruence].
Qed.

End ChatInputFacts.

(** X19.  Selecting files never changes the typed text and only ever
    appends previews: either none, or, when the selection fits under the
    limit of five and every file has an allowed type, at most 5 MiB and a
    reader that delivers, the data URLs of all selected files in their
    order, with no error shown.  A selection that would exceed five
    previews adds nothing and shows the limit message; and five previews at
    most stay five at most. *)
Theorem image_selection_adds_only_acceptable_files (files : option (list ChatInput.File))
    (st : ChatInput.State) :
  let st' := ChatInput.handleImageChange files st in
  ChatInput.input st' = ChatInput.input st /\
  (exists added,
     ChatInput.imagePreviews st' = ChatInput.imagePreviews st ++ added /\
     (added = [] \/
      exists l,
        files = Some l /\ Forall acceptable l /\
        map Some added = map ChatInput.readResult l /\
        ChatInput.imageError st' = None)) /\
  (forall l, files = Some l -> l <> [] ->
     Js.len (ChatInput.imagePreviews st) + Js.len l > 5 ->
     ChatInput.imagePreviews st' = ChatInput.imagePreviews st /\
     ChatInput.imageError st' = Some "You can upload a maximum of 5 images.") /\
  (Js.len (ChatInput.imagePreviews st) <= 5 -> Js.len (ChatInput.imagePreviews st') <= 5).
Proof.
  intros st'. subst st'. unfold ChatInput.handleImageChange.
  assert (Hnone : exists added,
            ChatInput.imagePreviews st = ChatInput.imagePreviews st ++ added /\
            (added = [] \/
             exists l,
               files = Some l /\ Forall acceptable l /\
               map Some added = map ChatInput.readResult l /\
               @None string = None)).
  { exists []. split; [now rewrite app_nil_r|now left]. }
  destruct files as [[|f l]|]; cbn [ChatInput.input ChatInput.imagePreviews ChatInput.imageError].
  - split; [reflexivity|]. split; [exact Hnone|]. split; [|tauto].
    intros l0 [= <-] Hne. contradiction.
  - destruct (Z.gtb_spec (Js.len (ChatInput.imagePreviews st) + Js.len (f :: l))
                ChatInput.maxFiles) as [Hgt|Hle];
      cbn [ChatInput.input ChatInput.imagePreviews ChatInput.imageError].
    + split; [reflexivity|]. split.
      { exists []. split; [now rewrite app_nil_r|now left]. }
      split; [|tauto]. intros l0 [= <-] _ _. split; reflexivity.
    + unfold ChatInput.maxFiles in Hle.
      destruct (ChatInput.promiseAll (f :: l)) as [news|e] eqn:Ep;
        cbn [ChatInput.input ChatInput.imagePreviews ChatInput.imageError].
      * destruct (promiseAll_fulfilled _ _ Ep) as [Hacc Hmap].
        split; [reflexivity|]. split.
        { exists news. split; [reflexivity|]. right. exists (f :: l).
          repeat split; assumption. }
        split; [intros l0 [= <-] _ H; lia|].
        intros _. unfold Js.len in *. rewrite length_app.
        assert (length news = length (f :: l)).
        { rewrite <- (length_map Some news), Hmap. apply length_map. }
        lia.
      * split; [reflexivity|]. split.
        { exists []. split; [now rewrite app_nil_r|now left]. }
        split; [|tauto]. intros l0 [= <-] _ H. lia.
  - split; [reflexivity|]. split; [exact Hnone|]. split; [|tauto].
    discriminate.
Qed.



(** ** Saving an edit *)

(** X21.  The edit box hands an edit over only when no send is in
    flight, and then with the trimmed text, which differs from the trimmed
    text of the message and is not empty unless the message has images.
    The re-send that [editMessage] schedules for it (new text, original
    images) therefore passes the send guard of a store with an active
    conversation: an accepted edit is never truncated away without a send. *)
Theorem saved_edit_is_resent (s : App.State) (message : Message)
    (editedText messageId newText : string) :
  MessageItem.handleSaveAndSubmit (App.isLoading s) message editedText
    = Some (messageId, newText) ->
  App.isLoading s = false /\
  messageId = Message.id message /\
  newText = GeminiService.trim editedText /\
  newText <> GeminiService.trim (Message.text message) /\
  (newText <> EmptyString \/ exists x l, Message.images message = Some (x :: l)) /\
  (Js.truthyOpt (App.activeConversationId s) = true ->
   App.activeConversation s <> None ->
   App.sendGuard s newText (Message.images message) = false).
Proof.
  unfold MessageItem.handleSaveAndSubmit, MessageItem.noImages.
  destruct (App.isLoading s) eqn:Hl; simpl; [discriminate|].
  destruct (String.eqb_spec (GeminiService.trim editedText)
              (GeminiService.trim (Message.text message))) as [|Hne]; simpl;
    [discriminate|].
  destruct (Js.truthy (GeminiService.trim editedText)) eqn:Ht; simpl.
  - intros [= <- <-]. repeat split; try assumption.
    + left. now apply truthy_true.
    + intros Hid Hact. unfold App.sendGuard. rewrite Hl, Hid, Ht. simpl.
      destruct (App.activeConversation s); [reflexivity|contradiction].
  - destruct (Message.images message) as [[|x l]|] eqn:Ei; simpl; try discriminate.
    intros [= <- <-]. repeat split; try assumption.
    + right. now exists x, l.
    + intros Hid Hact. unfold App.sendGuard. rewrite Hl, Hid, Ht. simpl.
      destruct (App.activeConversation s); [reflexivity|contradiction].
Qed.

Lemma saved_edit_is_resent_witness :
  App.isLoading Sample.twoExchanges = false /\
  "u2" = Message.id (App.userMessage "u2" "more" None) /\
  "less" = GeminiService.trim " less" /\
  "less" <> GeminiService.trim (Message.text (App.userMessage "u2" "more" None)) /\
  ("less" <> EmptyString \/
   exists x l, Message.images (App.userMessage "u2" "more" None) = Some (x :: l)) /\
  (Js.truthyOpt (App.activeConversationId Sample.twoExchanges) = true ->
   App.activeConversation Sample.twoExchanges <> None ->
   App.sendGuard Sample.twoExchanges "less"
     (Message.images (App.userMessage "u2" "more" None)) = false).
Proof.
  exact (saved_edit_is_resent Sample.twoExchanges (App.userMessage "u2" "more" None)
           " less" "u2" "less" eq_refl).
Defined.

(** ** Export *)

Section ExportFacts.

Lemma safe_unit (c : ascii) :
  isSafeUnit (ExportFile.toLowerCaseUnit (if ExportFile.isAlnum c then c else "_"%char))
  = true.
Proof. destruct c as [[] [] [] [] [] [] [] []]; reflexivity. Qed.

Lemma lowered_is_safe (t : string) :
  forallb isSafeUnit
    (list_ascii_of_string (ExportFile.toLowerCase (ExportFile.replaceOthers t))) = true.
Proof.
  induction t as [|c t IH]; simpl; [reflexivity|].
  now rewrite safe_unit, IH.
Qed.

Lemma lowered_length (t : string) :
  String.length (ExportFile.toLowerCase (ExportFile.replaceOthers t)) = String.length t.
Proof. induction t as [|c t IH]; simpl; [reflexivity|now rewrite IH]. Qed.

Lemma append_empty_r (a : string) : (a ++ "")%string = a.
Proof. induction a as [|x a IH]; simpl; [reflexivity|now rewrite IH]. Qed.

Lemma append_assoc_string (a b c : string) : ((a ++ b) ++ c)%string = (a ++ (b ++ c))%string.
Proof. induction a as [|x a IH]; simpl; [reflexivity|now rewrite IH]. Qed.

Lemma blocks_fold (l : list Message) (init : string) :
  fold_left (fun acc msg => (acc ++ ExportFile.messageBlock msg)%string) l init =
  (init ++ fold_right (fun msg r => (ExportFile.messageBlock msg ++ r)%string) "" l)%string.
Proof.
  revert init. induction l as [|m l IH]; intros init; simpl.
  - now rewrite append_empty_r.
  - now rewrite IH, append_assoc_string.
Qed.

End ExportFacts.

(** X22.  The name of an exported file is always safe: a non-empty stem
    of lower-case letters, digits and underscores followed by ".txt".  The
    stem has one character per character of the title (every character
    that is not a letter or digit becomes an underscore); for an empty
    title it is "conversation". *)
Theorem export_file_name_is_safe (title : string) :
  exists stem,
    ExportFile.fileName title = (stem ++ ".txt")%string /\
    stem <> EmptyString /\
    forallb isSafeUnit (list_ascii_of_string stem) = true /\
    (title = EmptyString -> stem = "conversation") /\
    (title <> EmptyString -> String.length stem = String.length title).
Proof.
  unfold ExportFile.fileName, Js.orElse.
  destruct (Js.truthy (ExportFile.toLowerCase (ExportFile.replaceOthers title))) eqn:E.
  - exists (ExportFile.toLowerCase (ExportFile.replaceOthers title)).
    apply truthy_true in E. repeat split; try assumption.
    + apply lowered_is_safe.
    + intros ->. now contradiction E.
    + intros _. apply lowered_length.
  - exists "conversation". repeat split; try discriminate.
    intros Hne. exfalso. destruct title; [now apply Hne|discriminate E].
Qed.

(** X23.  Export writes the header and then one block per message after
    the first, in order: the first message of the conversation, the
    greeting, never reaches the file, whatever it holds, and a conversation
    of one message exports as the header alone.  Without an active
    conversation nothing is exported and the banner says so. *)
Theorem export_leaves_out_the_first_message (s : App.State) :
  (App.activeConversation s = None ->
   ExportFile.handleExportConversation s =
   (App.setError (Some "No active conversation to export.") s, None)) /\
  (forall c g rest,
     App.activeConversation s = Some c ->
     Conversation.messages c = g :: rest ->
     ExportFile.handleExportConversation s =
     (s, Some (ExportFile.fileName (Conversation.title c),
               (ExportFile.content (Conversation.title c) (Conversation.mode c)
                  (App.context s) []
                ++ fold_right (fun msg r => (ExportFile.messageBlock msg ++ r)%string)
                     "" rest)%string))).
Proof.
  unfold ExportFile.handleExportConversation. split.
  - now intros ->.
  - intros c g rest -> Hm. do 3 f_equal. rewrite Hm.
    unfold ExportFile.content. rewrite !sliceFrom_one. simpl tl.
    now rewrite blocks_fold.
Qed.

(** ** The context in use *)

(** X24.  After every operation, with an active pointer that is a
    non-empty string, the context the send pipeline reads is the active
    conversation's own: the text stored with it, or the empty string when
    it stores none.  Setting the context stores it with the active
    conversation, and switching conversations switches the context. *)
Theorem context_follows_the_active_conversation (greetingId : string) (ai : Service)
    (a : App.Action) (s : App.State) (c : Conversation) :
  Js.truthyOpt (App.activeConversationId (App.step greetingId ai a s)) = true ->
  App.activeConversation (App.step greetingId ai a s) = Some c ->
  App.context (App.step greetingId ai a s) = Js.orElseOpt (Conversation.context c) "" /\
  (forall newContext, a = App.SetContext newContext ->
     Conversation.context c = Some newContext /\
     App.context (App.step greetingId ai a s) = newContext).
Proof.
  unfold App.step. intros Ht Hc.
  destruct (sessionBinder_keeps (App.handle greetingId ai a s)) as (_ & Hid & Ha & _).
  rewrite Ha in Hc. rewrite Hid in Ht.
  assert (Hctx : App.context (App.sessionBinder (App.handle greetingId ai a s)) =
                 Js.orElseOpt (Conversation.context c) "").
  { unfold App.sessionBinder. rewrite Hc. destruct (Conversation.mode c); reflexivity. }
  split; [exact Hctx|].
  intros newContext ->. simpl in *. unfold App.handleSetContext in *.
  simpl in Ht.
  destruct (negb (Js.truthyOpt (App.activeConversationId s))) eqn:En.
  - simpl in Ht. rewrite Ht in En. discriminate.
  - simpl in Ht. unfold App.activeConversation in Hc. simpl in Hc.
    rewrite find_mapActive in Hc by reflexivity.
    destruct (find _ (App.conversations s)) as [c0|]; [|discriminate].
    injection Hc as <-. split; [reflexivity|].
    rewrite Hctx. simpl. unfold Js.orElse.
    destruct (Js.truthy newContext) eqn:E; [reflexivity|].
    unfold Js.truthy in E.
    destruct (String.eqb_spec newContext EmptyString) as [->|]; [reflexivity|discriminate].
Qed.

Lemma context_follows_the_active_conversation_witness :
  App.context
    (App.step "g0" Sample.answering (App.SetContext "Paris facts") Sample.oneExchange)
  = "Paris facts".
Proof.
  exact (proj2 (proj2 (context_follows_the_active_conversation "g0" Sample.answering
                         (App.SetContext "Paris facts") Sample.oneExchange
                         (Conversation.mk "c1" "hello..."
                            [App.initialBotMessage "g0"; App.userMessage "u1" "hello" None;
                             Message.mk "m1" MODEL "fine" None None None None]
                            CHAT (Some "Paris facts"))
                         eq_refl eq_refl)
                  "Paris facts" eq_refl)).
Defined.

(** ** Removing a preview *)

Lemma removeIndex_from {A} (l : list A) (k i : Z) :
  ChatInput.removeIndex l k i =
  if (i <? k) || (k + Js.len l <=? i) then l
  else firstn (Z.to_nat (i - k)) l ++ skipn (S (Z.to_nat (i - k))) l.
Proof.
  revert k. induction l as [|x l IH]; intros k.
  - simpl. now destruct ((i <? k) || (k + Js.len (@nil A) <=? i)), (Z.to_nat (i - k)).
  - simpl ChatInput.removeIndex. rewrite IH. unfold Js.len. cbn [length].
    rewrite Nat2Z.inj_succ.
    destruct (Z.eqb_spec k i) as [->|Hne].
    + replace (i <? i + 1) with true by (symmetry; apply Z.ltb_lt; lia).
      replace (i <? i) with false by (symmetry; apply Z.ltb_ge; lia).
      replace (i + Z.succ (Z.of_nat (length l)) <=? i) with false
        by (symmetry; apply Z.leb_gt; lia).
      rewrite Z.sub_diag. reflexivity.
    + destruct (Z.ltb_spec i k) as [Hlt|Hge].
      * replace (i <? k + 1) with true by (symmetry; apply Z.ltb_lt; lia). reflexivity.
      * replace (i <? k + 1) with false by (symmetry; apply Z.ltb_ge; lia). simpl orb.
        replace (k + 1 + Z.of_nat (length l) <=? i)
          with (k + Z.succ (Z.of_nat (length l)) <=? i) by (f_equal; lia).
        destruct (k + Z.succ (Z.of_nat (length l)) <=? i); [reflexivity|].
        replace (Z.to_nat (i - k)) with (S (Z.to_nat (i - (k + 1)))) by lia.
        reflexivity.
Qed.

(** X25.  Removing a preview by its index removes exactly the preview at
    that index and keeps the others in order; an index outside the list
    (negative, or at least its length) removes nothing.  Either way an
    error that was shown is cleared and the typed text stays. *)
Theorem preview_removal_respects_bounds (indexToRemove : Z) (st : ChatInput.State) :
  let st' := ChatInput.handleRemoveImage indexToRemove st in
  ChatInput.input st' = ChatInput.input st /\
  Js.truthyOpt (ChatInput.imageError st') = false /\
  (indexToRemove < 0 \/ Js.len (ChatInput.imagePreviews st) <= indexToRemove ->
   ChatInput.imagePreviews st' = ChatInput.imagePreviews st) /\
  (0 <= indexToRemove < Js.len (ChatInput.imagePreviews st) ->
   ChatInput.imagePreviews st' =
     firstn (Z.to_nat indexToRemove) (ChatInput.imagePreviews st)
       ++ skipn (S (Z.to_nat indexToRemove)) (ChatInput.imagePreviews st) /\
   Js.len (ChatInput.imagePreviews st') = Js.len (ChatInput.imagePreviews st) - 1).
Proof.
  intros st'. subst st'. unfold ChatInput.handleRemoveImage. simpl.
  rewrite removeIndex_from, Z.sub_0_r, Z.add_0_l.
  split; [reflexivity|]. split.
  { destruct (Js.truthyOpt (ChatInput.imageError st)) eqn:E; [reflexivity|exact E]. }
  split.
  - intros [H|H].
    + replace (indexToRemove <? 0) with true by (symmetry; apply Z.ltb_lt; lia).
      reflexivity.
    + replace (Js.len (ChatInput.imagePreviews st) <=? indexToRemove) with true
        by (symmetry; apply Z.leb_le; lia).
      now rewrite orb_true_r.
  - intros [H0 H1].
    replace (indexToRemove <? 0) with false by (symmetry; apply Z.ltb_ge; lia).
    replace (Js.len (ChatInput.imagePreviews st) <=? indexToRemove) with false
      by (symmetry; apply Z.leb_gt; lia).
    cbn [orb]. split; [reflexivity|].
    unfold Js.len in *. rewrite length_app, length_firstn, length_skipn. lia.
Qed.
